(** * Matrix2: a shallow embedding of Source/Core/Matrix2.js

    The JavaScript module keeps every matrix as an object whose [values]
    property refers to an array of four numbers.  The operations take an
    optional [result] object that they overwrite in place, so the embedding
    threads an explicit heap through a small state-and-exception monad and
    keeps arrays, Matrix2 objects and Cartesian2 objects in that heap, with
    the sharing the source has.

    Numbers are IEEE-754 binary64 values, taken from the Standard Library's
    executable specification of floating-point arithmetic.

    What the embedding covers: arguments that are [undefined], a number, or
    a reference to an array, a Matrix2 object or a Cartesian2 object; array
    elements and vector coordinates that are [undefined] or a number; strict
    mode, under which a write to a frozen object throws.  The instance
    methods on [Matrix2.prototype] only pass [this] to the functions
    modelled here and are left out.

    The file has two parts: the definitions (numbers, values and heap, the
    functions of the module, and the observations the statements are
    phrased with), then the lemmas and the theorems about them. *)

From Stdlib Require Import ZArith Bool List String Ascii Lia.
From Stdlib Require Import Floats.SpecFloat.
From stdpp Require Import base option list.

Local Open Scope Z_scope.

(** ** JavaScript numbers *)

Module Number.

Definition prec : Z := 53.
Definition emax : Z := 1024.

(** A JavaScript number is a binary64 value; [S754_nan] is the one NaN
    the language can observe. *)
Definition number : Type := spec_float.

Definition NaN : number := S754_nan.
Definition Infinity : number := S754_infinity false.

(** The number denoted by an integer literal. *)
Definition of_Z (z : Z) : number := binary_normalize prec emax z 0 false.

(** [m * 2^e], rounded: how a decimal literal with a finite binary
    expansion (such as [0.5]) is read. *)
Definition of_scaled (m e : Z) : number := binary_normalize prec emax m e false.

Definition zero : number := Eval vm_compute in of_Z 0.
Definition one : number := Eval vm_compute in of_Z 1.

Definition mul : number -> number -> number := SFmul prec emax.
Definition add : number -> number -> number := SFadd prec emax.
Definition sub : number -> number -> number := SFsub prec emax.
Definition neg : number -> number := SFopp.
Definition abs : number -> number := SFabs.

(** The relational operators; each is false as soon as an operand is NaN. *)
Definition ltb (x y : number) : bool := SFltb x y.
Definition gtb (x y : number) : bool := SFltb y x.
Definition leb (x y : number) : bool := SFleb x y.
(** [===] on two numbers: NaN differs from itself, the two zeros agree. *)
Definition eqb (x y : number) : bool := SFeqb x y.

(** A finite number in its canonical binary64 form. *)
Definition finite (x : number) : bool :=
  match x with
  | S754_zero _ => true
  | S754_finite _ m e => bounded prec emax m e
  | _ => false
  end.

(** *** Array indices

    A property key computed from a number addresses an array element when
    the number is an integer in [0, 2^32 - 2] (minus zero included, which
    prints as "0"). *)
Definition to_array_index (x : number) : option nat :=
  match x with
  | S754_zero _ => Some 0%nat
  | S754_finite false m e =>
      let i := match e with
               | Z0 => Some (Zpos m)
               | Zpos _ => Some (Zpos m * 2 ^ e)
               | Zneg p => if Zpos m mod 2 ^ Zpos p =? 0
                           then Some (Zpos m / 2 ^ Zpos p) else None
               end in
      match i with
      | Some i => if i <? 4294967295 then Some (Z.to_nat i) else None
      | None => None
      end
  | _ => None
  end.

(** *** Number to string

    The conversion the language applies when a number is concatenated to
    a string: the shortest decimal that reads back as the same binary64
    value, laid out in positional or exponent form by its magnitude. *)

Local Open Scope string_scope.
Local Open Scope Z_scope.

Definition digit_char (d : Z) : ascii :=
  match Z.to_nat d with
  | 0%nat => "0" | 1%nat => "1" | 2%nat => "2" | 3%nat => "3" | 4%nat => "4"
  | 5%nat => "5" | 6%nat => "6" | 7%nat => "7" | 8%nat => "8" | _ => "9"
  end%char.

Fixpoint decimal_fuel (fuel : nat) (n : Z) (acc : string) : string :=
  match fuel with
  | O => acc
  | S fuel' =>
      let acc' := String (digit_char (n mod 10)) acc in
      if n / 10 =? 0 then acc' else decimal_fuel fuel' (n / 10) acc'
  end.

(** The decimal digits of a non-negative integer. *)
Definition decimal (n : Z) : string :=
  decimal_fuel (S (Z.to_nat (Z.log2 n))) n "".

Fixpoint zeros (n : nat) : string :=
  match n with O => "" | S n' => String "0"%char (zeros n') end.

Fixpoint strip_zeros (fuel : nat) (s q : Z) : Z * Z :=
  match fuel with
  | O => (s, q)
  | S fuel' =>
      if (0 <? s) && (s mod 10 =? 0) then strip_zeros fuel' (s / 10) (q + 1)
      else (s, q)
  end.

Section Shortest.
(** The positive number [m * 2^e] in canonical binary64 form. *)
Variables (m : positive) (e : Z).

Let unit_exp : Z := e - 2.
Let pow2_up : Z := 2 ^ Z.max unit_exp 0.
Let pow2_down : Z := 2 ^ Z.max (- unit_exp) 0.

(** In units of [2^(e-2)]: the number itself and the two midpoints to
    its neighbours, between which a real rounds to it. *)
Definition here : Z := 4 * Zpos m.
Definition upper : Z := 4 * Zpos m + 2.
Definition lower : Z :=
  if (Zpos m =? 2 ^ 52) && (-1074 <? e) then 4 * Zpos m - 1 else 4 * Zpos m - 2.

Definition scaled_candidate (s q : Z) : Z := s * 10 ^ Z.max q 0 * pow2_down.
Definition scaled_bound (b q : Z) : Z := b * 10 ^ Z.max (- q) 0 * pow2_up.

(** Does [s * 10^q] round to the number? *)
Definition rounds_here (s q : Z) : bool :=
  let c := scaled_candidate s q in
  if Z.even (Zpos m)
  then (scaled_bound lower q <=? c) && (c <=? scaled_bound upper q)
  else (scaled_bound lower q <? c) && (c <? scaled_bound upper q).

Definition distance (s q : Z) : Z :=
  Z.abs (scaled_candidate s q - scaled_bound here q).

Definition floor_at (q : Z) : Z :=
  scaled_bound here q / (10 ^ Z.max q 0 * pow2_down).

(** [n] with [10^(n-1) <= m * 2^e < 10^n]. *)
Definition decimal_exponent : Z :=
  let num := Zpos m * 2 ^ Z.max e 0 in
  let den := 2 ^ Z.max (- e) 0 in
  if den <=? num then Z.of_nat (String.length (decimal (num / den)))
  else 1 - Z.of_nat (String.length (decimal (den / num))).

(** The fewest digits [k] for which some [s * 10^(n-k)] rounds to the
    number, and among those the [s] nearest to it. *)
Fixpoint shortest (fuel : nat) (k : Z) : Z * Z :=
  let q := decimal_exponent - k in
  let a := floor_at q in
  match fuel with
  | O => (a, q)
  | S fuel' =>
      match rounds_here a q, rounds_here (a + 1) q with
      | true, true =>
          match distance a q ?= distance (a + 1) q with
          | Lt => (a, q)
          | Gt => (a + 1, q)
          | Eq => if Z.even a then (a, q) else (a + 1, q)
          end
      | true, false => (a, q)
      | false, true => (a + 1, q)
      | false, false => shortest fuel' (k + 1)
      end
  end.
End Shortest.

Definition format_positive (s q : Z) : string :=
  let ds := decimal s in
  let k := Z.of_nat (String.length ds) in
  let n := q + k in
  if (k <=? n) && (n <=? 21) then ds ++ zeros (Z.to_nat (n - k))
  else if (0 <? n) && (n <=? 21)
  then substring 0 (Z.to_nat n) ds ++ "." ++ substring (Z.to_nat n) (Z.to_nat (k - n)) ds
  else if (-6 <? n) && (n <=? 0) then "0." ++ zeros (Z.to_nat (- n)) ++ ds
  else
    let mant := if k =? 1 then ds
                else substring 0 1 ds ++ "." ++ substring 1 (Z.to_nat (k - 1)) ds in
    mant ++ "e" ++ (if 0 <=? n - 1 then "+" else "-") ++ decimal (Z.abs (n - 1)).

Definition number_to_string (x : number) : string :=
  match x with
  | S754_nan => "NaN"
  | S754_zero _ => "0"
  | S754_infinity s => if s then "-Infinity" else "Infinity"
  | S754_finite s m e =>
      let '(s10, q) := shortest m e 17 1 in
      let '(s10, q) := strip_zeros 400 s10 q in
      (if s then "-" else "") ++ format_positive s10 q
  end.

End Number.

Import Number.


(** ** Values, objects and the heap *)

Abbreviation loc := nat.

(** The primitive values an array element or a vector coordinate holds in
    this model: a number, or [undefined] (what a missing element reads as). *)
Inductive prim : Type :=
| PUndefined
| PNumber (x : number).

(** What an argument can be: a primitive, or a reference to a heap object. *)
Inductive value : Type :=
| VPrim (p : prim)
| VRef (l : loc).

Abbreviation undefined := (VPrim PUndefined).
Abbreviation num z := (PNumber (of_Z z)).

Inductive object : Type :=
| OArray (elems : list prim) (named : list (string * prim))
| OMatrix2 (values : loc)
| OCartesian2 (x y : prim).

(** A heap cell: the object and whether [Object.freeze] was applied to it. *)
Record cell : Type := Cell { obj : object; frozen : bool }.

Abbreviation heap := (list cell).

Inductive error : Type :=
| DeveloperError (message : string)
| TypeError
(** What the embedding does not follow: a dangling reference, or a
    property added to an object that has no such field here. *)
| OutsideModel.

Inductive outcome (A : Type) : Type :=
| Ok (a : A)
| Throw (e : error).
Arguments Ok {A} a.
Arguments Throw {A} e.

(** Computations read and update the heap and may throw; the heap at the
    point of the throw is kept, as the language keeps it. *)
Definition M (A : Type) : Type := heap -> outcome A * heap.

Definition ret {A} (a : A) : M A := fun h => (Ok a, h).
Definition throw {A} (e : error) : M A := fun h => (Throw e, h).
Definition bind {A B} (c : M A) (k : A -> M B) : M B :=
  fun h => match c h with
           | (Ok a, h') => k a h'
           | (Throw e, h') => (Throw e, h')
           end.

Declare Scope js_scope.
Delimit Scope js_scope with js.
Notation "'let*' x := c 'in' k" := (bind c (fun x => k))
  (at level 10, x name, c at level 100, k at level 200) : js_scope.
Notation "c ';;;' k" := (bind c (fun _ => k))
  (at level 100, k at level 200, right associativity) : js_scope.
Local Open Scope js_scope.

(** *** Conversions and operators on primitives *)

Definition to_number (p : prim) : number :=
  match p with
  | PUndefined => NaN
  | PNumber x => x
  end.

Definition js_mul (p q : prim) : prim := PNumber (mul (to_number p) (to_number q)).
Definition js_add (p q : prim) : prim := PNumber (add (to_number p) (to_number q)).
Definition js_sub (p q : prim) : prim := PNumber (sub (to_number p) (to_number q)).
Definition js_neg (p : prim) : prim := PNumber (neg (to_number p)).
Definition Math_abs (p : prim) : number := abs (to_number p).

(** [p === q] *)
Definition strict_equals (p q : prim) : bool :=
  match p, q with
  | PUndefined, PUndefined => true
  | PNumber x, PNumber y => eqb x y
  | _, _ => false
  end.

(** [v === w]: objects are compared by identity. *)
Definition strict_equals_value (v w : value) : bool :=
  match v, w with
  | VPrim p, VPrim q => strict_equals p q
  | VRef l, VRef l' => Nat.eqb l l'
  | _, _ => false
  end.

Definition prim_to_string (p : prim) : string :=
  match p with
  | PUndefined => "undefined"
  | PNumber x => number_to_string x
  end.

Definition is_undefined (v : value) : bool :=
  match v with
  | VPrim PUndefined => true
  | _ => false
  end.

(** *** Heap primitives *)

Definition alloc (o : object) : M value :=
  fun h => (Ok (VRef (length h)), h ++ [Cell o false]).

Definition read_cell (l : loc) : M cell :=
  fun h => match h !! l with
           | Some c => (Ok c, h)
           | None => (Throw OutsideModel, h)
           end.

Definition write_obj (l : loc) (o : object) : M unit :=
  fun h => match h !! l with
           | Some c => (Ok tt, <[l := Cell o (frozen c)]> h)
           | None => (Throw OutsideModel, h)
           end.

(** [Object.freeze(v)]: marks the one object [v] refers to and returns [v].
    Objects its properties refer to are not visited. *)
Definition Object_freeze (v : value) : M value :=
  match v with
  | VRef l =>
      fun h => match h !! l with
               | Some c => (Ok v, <[l := Cell (obj c) true]> h)
               | None => (Throw OutsideModel, h)
               end
  | VPrim _ => ret v
  end.

(** [Array.isArray(v)] *)
Definition Array_isArray (v : value) : M bool :=
  match v with
  | VRef l =>
      let* c := read_cell l in
      match obj c with
      | OArray _ _ => ret true
      | _ => ret false
      end
  | VPrim _ => ret false
  end.

(** **** Arrays *)

Definition elems_get (es : list prim) (i : nat) : prim :=
  default PUndefined (es !! i).

(** Writing at or past the length extends the array; the elements skipped
    read as [undefined]. *)
Definition elems_set (es : list prim) (i : nat) (p : prim) : list prim :=
  if decide (i < length es)%nat then <[i := p]> es
  else es ++ replicate (i - length es)%nat PUndefined ++ [p].

Fixpoint named_get (ps : list (string * prim)) (k : string) : prim :=
  match ps with
  | [] => PUndefined
  | (k', p) :: ps' => if String.eqb k k' then p else named_get ps' k
  end.

Fixpoint named_set (ps : list (string * prim)) (k : string) (p : prim) : list (string * prim) :=
  match ps with
  | [] => [(k, p)]
  | (k', p') :: ps' =>
      if String.eqb k k' then (k, p) :: ps' else (k', p') :: named_set ps' k p
  end.

(** An array literal [[a, b, c, d]]. *)
Definition array_literal (es : list prim) : M value := alloc (OArray es []).

(** [a[i]] for an array reference [a] and a literal index [i]. *)
Definition index_get (a : loc) (i : nat) : M prim :=
  let* c := read_cell a in
  match obj c with
  | OArray es _ => ret (elems_get es i)
  | _ => throw OutsideModel
  end.

(** [a[i] = p] under strict mode: a frozen array refuses the write. *)
Definition index_set (a : loc) (i : nat) (p : prim) : M unit :=
  let* c := read_cell a in
  match obj c with
  | OArray es ps =>
      if frozen c then throw TypeError
      else write_obj a (OArray (elems_set es i p) ps)
  | _ => throw OutsideModel
  end.

(** [a[x]] for a computed number [x]: an element when [x] is an array
    index, otherwise the property named by the string of [x]. *)
Definition key_get (a : loc) (x : number) : M prim :=
  match to_array_index x with
  | Some i => index_get a i
  | None =>
      let* c := read_cell a in
      match obj c with
      | OArray _ ps => ret (named_get ps (number_to_string x))
      | _ => throw OutsideModel
      end
  end.

Definition key_set (a : loc) (x : number) (p : prim) : M unit :=
  match to_array_index x with
  | Some i => index_set a i p
  | None =>
      let* c := read_cell a in
      match obj c with
      | OArray es ps =>
          if frozen c then throw TypeError
          else write_obj a (OArray es (named_set ps (number_to_string x) p))
      | _ => throw OutsideModel
      end
  end.

(** [a.slice(0)]: a fresh array with the elements of [a]. *)
Definition slice0 (a : loc) : M value :=
  let* c := read_cell a in
  match obj c with
  | OArray es _ => alloc (OArray es [])
  | _ => throw OutsideModel
  end.

(** **** Matrix2 and Cartesian2 objects *)

(** [v.values].  On anything but a Matrix2 object the property is missing
    and reads as [undefined]; every use in the module indexes the result at
    once, which throws a TypeError, and that is the outcome given here. *)
Definition get_values (v : value) : M loc :=
  match v with
  | VPrim _ => throw TypeError
  | VRef l =>
      let* c := read_cell l in
      match obj c with
      | OMatrix2 a => ret a
      | _ => throw TypeError
      end
  end.

(** [new Matrix2(values)] *)
Definition new_Matrix2 (values : value) : M value :=
  if is_undefined values then
    let* a := array_literal [num 0; num 0; num 0; num 0] in
    match a with
    | VRef a => alloc (OMatrix2 a)
    | VPrim _ => throw OutsideModel
    end
  else
    let* is_array := Array_isArray values in
    if negb is_array then throw (DeveloperError "values must be an array")
    else
      match values with
      | VRef a => alloc (OMatrix2 a)
      | VPrim _ => throw OutsideModel
      end.

(** Modelled from the spec: the companion 2-D vector type Cartesian2 is not
    part of this module.  It is "an ordered pair of two numeric coordinates
    with simple get/set semantics": constructed from [(x, y)], read and
    written through [.x] and [.y]. *)
Definition new_Cartesian2 (x y : prim) : M value := alloc (OCartesian2 x y).

(** [v.x] and [v.y]: a missing property reads as [undefined]. *)
Definition get_coord (first : bool) (v : value) : M prim :=
  match v with
  | VPrim PUndefined => throw TypeError
  | VPrim (PNumber _) => ret PUndefined
  | VRef l =>
      let* c := read_cell l in
      match obj c with
      | OCartesian2 x y => ret (if first then x else y)
      | _ => ret PUndefined
      end
  end.

Definition get_x : value -> M prim := get_coord true.
Definition get_y : value -> M prim := get_coord false.

(** [v.x = p] and [v.y = p] under strict mode. *)
Definition set_coord (first : bool) (v : value) (p : prim) : M unit :=
  match v with
  | VPrim _ => throw TypeError
  | VRef l =>
      let* c := read_cell l in
      if frozen c then throw TypeError
      else
        match obj c with
        | OCartesian2 x y =>
            write_obj l (if first then OCartesian2 p y else OCartesian2 x p)
        | _ => throw OutsideModel
        end
  end.

Definition set_x : value -> prim -> M unit := set_coord true.
Definition set_y : value -> prim -> M unit := set_coord false.

(** ** The Matrix2 module *)

Module Matrix2.

Definition fromComponents (column0Row0 column1Row0 column0Row1 column1Row1 : prim)
    (result : value) : M value :=
  if is_undefined result then
    let* a := array_literal [column0Row0; column1Row0; column0Row1; column1Row1] in
    new_Matrix2 a
  else
    let* rv := get_values result in index_set rv 0 column0Row0 ;;;
    let* rv := get_values result in index_set rv 1 column1Row0 ;;;
    let* rv := get_values result in index_set rv 2 column0Row1 ;;;
    let* rv := get_values result in index_set rv 3 column1Row1 ;;;
    ret result.

Definition fromRowMajorArray (values result : value) : M value :=
  let* is_array := Array_isArray values in
  if negb is_array then throw (DeveloperError "values must be an array")
  else
    match values with
    | VPrim _ => throw OutsideModel
    | VRef values =>
        if is_undefined result then
          let* v0 := index_get values 0 in
          let* v2 := index_get values 2 in
          let* v1 := index_get values 1 in
          let* v3 := index_get values 3 in
          let* a := array_literal [v0; v2; v1; v3] in
          new_Matrix2 a
        else
          let* rv := get_values result in
          let* v0 := index_get values 0 in index_set rv 0 v0 ;;;
          let* rv := get_values result in
          let* v2 := index_get values 2 in index_set rv 1 v2 ;;;
          let* rv := get_values result in
          let* v1 := index_get values 1 in index_set rv 2 v1 ;;;
          let* rv := get_values result in
          let* v3 := index_get values 3 in index_set rv 3 v3 ;;;
          ret result
    end.

Definition clone (matrix result : value) : M value :=
  if is_undefined matrix then throw (DeveloperError "matrix is required")
  else if is_undefined result then
    let* mv := get_values matrix in
    let* a := slice0 mv in
    new_Matrix2 a
  else
    let* values := get_values matrix in
    let* resultValues := get_values result in
    let* v0 := index_get values 0 in index_set resultValues 0 v0 ;;;
    let* v1 := index_get values 1 in index_set resultValues 1 v1 ;;;
    let* v2 := index_get values 2 in index_set resultValues 2 v2 ;;;
    let* v3 := index_get values 3 in index_set resultValues 3 v3 ;;;
    ret result.

(** The guard shared by the four row and column accessors:
    [typeof index !== 'number' || index < 0 || index > 1]. *)
Definition check_index (index : value) : M number :=
  match index with
  | VPrim (PNumber i) =>
      if ltb i zero || gtb i one
      then throw (DeveloperError "index is required and must be 0 or 1.")
      else ret i
  | _ => throw (DeveloperError "index is required and must be 0 or 1.")
  end.

Definition getColumn (matrix index result : value) : M value :=
  if is_undefined matrix then throw (DeveloperError "matrix is required.")
  else
    let* index := check_index index in
    let startIndex := index in
    let* mv := get_values matrix in
    let* x := key_get mv startIndex in
    let* mv := get_values matrix in
    let* y := key_get mv (add startIndex (of_Z 2)) in
    if is_undefined result then new_Cartesian2 x y
    else
      set_x result x ;;;
      set_y result y ;;;
      ret result.

Definition setColumn (matrix index cartesian result : value) : M value :=
  if is_undefined matrix then throw (DeveloperError "matrix is required")
  else if is_undefined cartesian then throw (DeveloperError "cartesian is required")
  else
    let* index := check_index index in
    let* result := clone matrix result in
    let startIndex := index in
    let* rv := get_values result in
    let* cx := get_x cartesian in key_set rv startIndex cx ;;;
    let* rv := get_values result in
    let* cy := get_y cartesian in key_set rv (add startIndex (of_Z 2)) cy ;;;
    ret result.

Definition getRow (matrix index result : value) : M value :=
  if is_undefined matrix then throw (DeveloperError "matrix is required.")
  else
    let* index := check_index index in
    let startIndex := mul index (of_Z 2) in
    let* mv := get_values matrix in
    let* x := key_get mv startIndex in
    let* mv := get_values matrix in
    let* y := key_get mv (add startIndex (of_Z 1)) in
    if is_undefined result then new_Cartesian2 x y
    else
      set_x result x ;;;
      set_y result y ;;;
      ret result.

Definition setRow (matrix index cartesian result : value) : M value :=
  if is_undefined matrix then throw (DeveloperError "matrix is required")
  else if is_undefined cartesian then throw (DeveloperError "cartesian is required")
  else
    let* index := check_index index in
    let startIndex := mul index (of_Z 2) in
    let* result := clone matrix result in
    let* rv := get_values result in
    let* cx := get_x cartesian in key_set rv startIndex cx ;;;
    let* rv := get_values result in
    let* cy := get_y cartesian in key_set rv (add startIndex (of_Z 1)) cy ;;;
    ret result.

Definition multiply (left right result : value) : M value :=
  if is_undefined left then throw (DeveloperError "left is required")
  else if is_undefined right then throw (DeveloperError "right is required")
  else
    let* leftValues := get_values left in
    let* rightValues := get_values right in
    let* l0 := index_get leftValues 0 in
    let* r0 := index_get rightValues 0 in
    let* l1 := index_get leftValues 1 in
    let* r2 := index_get rightValues 2 in
    let column0Row0 := js_add (js_mul l0 r0) (js_mul l1 r2) in
    let* l0 := index_get leftValues 0 in
    let* r1 := index_get rightValues 1 in
    let* l1 := index_get leftValues 1 in
    let* r3 := index_get rightValues 3 in
    let column1Row0 := js_add (js_mul l0 r1) (js_mul l1 r3) in
    let* l2 := index_get leftValues 2 in
    let* r0 := index_get rightValues 0 in
    let* l3 := index_get leftValues 3 in
    let* r2 := index_get rightValues 2 in
    let column0Row1 := js_add (js_mul l2 r0) (js_mul l3 r2) in
    let* l2 := index_get leftValues 2 in
    let* r1 := index_get rightValues 1 in
    let* l3 := index_get leftValues 3 in
    let* r3 := index_get rightValues 3 in
    let column1Row1 := js_add (js_mul l2 r1) (js_mul l3 r3) in
    if is_undefined result then
      let* a := array_literal [column0Row0; column1Row0; column0Row1; column1Row1] in
      new_Matrix2 a
    else
      let* resultValues := get_values result in
      index_set resultValues 0 column0Row0 ;;;
      index_set resultValues 1 column1Row0 ;;;
      index_set resultValues 2 column0Row1 ;;;
      index_set resultValues 3 column1Row1 ;;;
      ret result.

Definition multiplyByVector (matrix cartesian result : value) : M value :=
  if is_undefined matrix then throw (DeveloperError "matrix is required")
  else if is_undefined cartesian then throw (DeveloperError "cartesian is required")
  else
    let* matrixValues := get_values matrix in
    let* m0 := index_get matrixValues 0 in
    let* cx := get_x cartesian in
    let* m1 := index_get matrixValues 1 in
    let* cy := get_y cartesian in
    let x := js_add (js_mul m0 cx) (js_mul m1 cy) in
    let* m2 := index_get matrixValues 2 in
    let* cx := get_x cartesian in
    let* m3 := index_get matrixValues 3 in
    let* cy := get_y cartesian in
    let y := js_add (js_mul m2 cx) (js_mul m3 cy) in
    if is_undefined result then new_Cartesian2 x y
    else
      set_x result x ;;;
      set_y result y ;;;
      ret result.

Definition multiplyByScalar (matrix scalar result : value) : M value :=
  if is_undefined matrix then throw (DeveloperError "matrix is required")
  else
    match scalar with
    | VPrim (PNumber s) =>
        let scalar := PNumber s in
        let* matrixValues := get_values matrix in
        if is_undefined result then
          let* m0 := index_get matrixValues 0 in
          let* m1 := index_get matrixValues 1 in
          let* m2 := index_get matrixValues 2 in
          let* m3 := index_get matrixValues 3 in
          let* a := array_literal [js_mul m0 scalar; js_mul m1 scalar;
                                   js_mul m2 scalar; js_mul m3 scalar] in
          new_Matrix2 a
        else
          let* resultValues := get_values result in
          let* m0 := index_get matrixValues 0 in
          index_set resultValues 0 (js_mul m0 scalar) ;;;
          let* m1 := index_get matrixValues 1 in
          index_set resultValues 1 (js_mul m1 scalar) ;;;
          let* m2 := index_get matrixValues 2 in
          index_set resultValues 2 (js_mul m2 scalar) ;;;
          let* m3 := index_get matrixValues 3 in
          index_set resultValues 3 (js_mul m3 scalar) ;;;
          ret result
    | _ => throw (DeveloperError "scalar is required and must be a number")
    end.

Definition negate (matrix result : value) : M value :=
  if is_undefined matrix then throw (DeveloperError "matrix is required")
  else
    let* matrixValues := get_values matrix in
    if is_undefined result then
      let* m0 := index_get matrixValues 0 in
      let* m1 := index_get matrixValues 1 in
      let* m2 := index_get matrixValues 2 in
      let* m3 := index_get matrixValues 3 in
      let* a := array_literal [js_neg m0; js_neg m1; js_neg m2; js_neg m3] in
      new_Matrix2 a
    else
      let* resultValues := get_values result in
      let* m0 := index_get matrixValues 0 in index_set resultValues 0 (js_neg m0) ;;;
      let* m1 := index_get matrixValues 1 in index_set resultValues 1 (js_neg m1) ;;;
      let* m2 := index_get matrixValues 2 in index_set resultValues 2 (js_neg m2) ;;;
      let* m3 := index_get matrixValues 3 in index_set resultValues 3 (js_neg m3) ;;;
      ret result.

Definition transpose (matrix result : value) : M value :=
  if is_undefined matrix then throw (DeveloperError "matrix is required")
  else
    let* matrixValues := get_values matrix in
    let* column0Row0 := index_get matrixValues 0 in
    let* column1Row0 := index_get matrixValues 2 in
    let* column0Row1 := index_get matrixValues 1 in
    let* column1Row1 := index_get matrixValues 3 in
    if is_undefined result then
      let* a := array_literal [column0Row0; column1Row0; column0Row1; column1Row1] in
      new_Matrix2 a
    else
      let* resultValues := get_values result in
      index_set resultValues 0 column0Row0 ;;;
      index_set resultValues 1 column1Row0 ;;;
      index_set resultValues 2 column0Row1 ;;;
      index_set resultValues 3 column1Row1 ;;;
      ret result.

Definition equals (left right : value) : M bool :=
  if strict_equals_value left right then ret true
  else if is_undefined left || is_undefined right then ret false
  else
    let* leftValues := get_values left in
    let* rightValues := get_values right in
    let* l0 := index_get leftValues 0 in
    let* r0 := index_get rightValues 0 in
    if negb (strict_equals l0 r0) then ret false
    else
      let* l1 := index_get leftValues 1 in
      let* r1 := index_get rightValues 1 in
      if negb (strict_equals l1 r1) then ret false
      else
        let* l2 := index_get leftValues 2 in
        let* r2 := index_get rightValues 2 in
        if negb (strict_equals l2 r2) then ret false
        else
          let* l3 := index_get leftValues 3 in
          let* r3 := index_get rightValues 3 in
          ret (strict_equals l3 r3).

Definition equalsEpsilon (left right epsilon : value) : M bool :=
  match epsilon with
  | VPrim (PNumber epsilon) =>
      if strict_equals_value left right then ret true
      else if is_undefined left || is_undefined right then ret false
      else
        let* leftValues := get_values left in
        let* rightValues := get_values right in
        let* l0 := index_get leftValues 0 in
        let* r0 := index_get rightValues 0 in
        if negb (leb (Math_abs (js_sub l0 r0)) epsilon) then ret false
        else
          let* l1 := index_get leftValues 1 in
          let* r1 := index_get rightValues 1 in
          if negb (leb (Math_abs (js_sub l1 r1)) epsilon) then ret false
          else
            let* l2 := index_get leftValues 2 in
            let* r2 := index_get rightValues 2 in
            if negb (leb (Math_abs (js_sub l2 r2)) epsilon) then ret false
            else
              let* l3 := index_get leftValues 3 in
              let* r3 := index_get rightValues 3 in
              ret (leb (Math_abs (js_sub l3 r3)) epsilon)
  | _ => throw (DeveloperError "epsilon is required and must be a number")
  end.

Definition newline : string := String (ascii_of_nat 10) EmptyString.

Definition toString (matrix : value) : M string :=
  if is_undefined matrix then throw (DeveloperError "matrix is required")
  else
    let* mv := get_values matrix in let* v0 := index_get mv 0 in
    let* mv := get_values matrix in let* v1 := index_get mv 1 in
    let* mv := get_values matrix in let* v2 := index_get mv 2 in
    let* mv := get_values matrix in let* v3 := index_get mv 3 in
    ret ("(" ++ prim_to_string v0 ++ ", " ++ prim_to_string v1 ++ ")" ++ newline ++
         "(" ++ prim_to_string v2 ++ ", " ++ prim_to_string v3 ++ ")")%string.

(** The statement that defines the constant when the module is loaded:
    [Matrix2.IDENTITY = Object.freeze(Matrix2.fromComponents(1.0, 0.0, 0.0, 1.0))]. *)
Definition define_IDENTITY : M value :=
  let* m := fromComponents (num 1) (num 0) (num 0) (num 1) undefined in
  Object_freeze m.

(** The heap once the module is loaded, and the constant in it. *)
Definition loaded : outcome value * heap := define_IDENTITY [].
Definition loaded_heap : heap := snd loaded.
Definition IDENTITY : value :=
  match fst loaded with
  | Ok v => v
  | Throw _ => undefined
  end.

End Matrix2.

Import Matrix2.

(** ** Observing the heap *)

(** The array a Matrix2 object keeps in its [values] property. *)
Definition storage (h : heap) (v : value) : option loc :=
  match v with
  | VRef l =>
      match h !! l with
      | Some (Cell (OMatrix2 a) _) => Some a
      | _ => None
      end
  | VPrim _ => None
  end.

Definition elements (h : heap) (a : loc) : option (list prim) :=
  match h !! a with
  | Some (Cell (OArray es _) _) => Some es
  | _ => None
  end.

Definition four (es : list prim) : prim * prim * prim * prim :=
  (elems_get es 0, elems_get es 1, elems_get es 2, elems_get es 3).

(** The four components of a matrix: [values[0]] to [values[3]]. *)
Definition components (h : heap) (v : value) : option (prim * prim * prim * prim) :=
  match storage h v with
  | Some a =>
      match elements h a with
      | Some es => Some (four es)
      | None => None
      end
  | None => None
  end.

(** The two coordinates of a vector. *)
Definition coordinates (h : heap) (v : value) : option (prim * prim) :=
  match v with
  | VRef l =>
      match h !! l with
      | Some (Cell (OCartesian2 x y) _) => Some (x, y)
      | _ => None
      end
  | VPrim _ => None
  end.

(** Position 0 of a vector is [x], position 1 is [y]. *)
Definition position (i : nat) (xy : prim * prim) : prim :=
  match i with
  | O => fst xy
  | _ => snd xy
  end.

(** An argument that is a Matrix2 object, or is absent. *)
Definition optional_matrix (h : heap) (v : value) : Prop :=
  v = undefined \/ is_Some (components h v).

(** A Matrix2 object whose backing array accepts writes. *)
Definition writable_matrix (h : heap) (v : value) : Prop :=
  exists a es ps, storage h v = Some a /\ h !! a = Some (Cell (OArray es ps) false).

Definition writable_vector (h : heap) (v : value) : Prop :=
  exists l x y, v = VRef l /\ h !! l = Some (Cell (OCartesian2 x y) false).

Definition not_an_array (h : heap) (v : value) : Prop :=
  match v with
  | VPrim _ => True
  | VRef l =>
      match h !! l with
      | Some (Cell (OArray _ _) _) => False
      | Some _ => True
      | None => False
      end
  end.

Definition is_matrix (h : heap) (v : value) : Prop := is_Some (components h v).
Definition is_vector (h : heap) (v : value) : Prop := is_Some (coordinates h v).

Definition finite_prim (p : prim) : Prop :=
  exists x, p = PNumber x /\ finite x = true.

(** The index argument for row or column [i]. *)
Definition index_value (i : nat) : value := VPrim (num (Z.of_nat i)).

(** The number one half, as the literal [0.5] denotes it. *)
Definition one_half : number := Eval vm_compute in of_scaled 1 (-1).

(** *** Calls with an optional result *)

(** The operations that take an optional [result], with their other
    arguments. *)
Inductive call : Type :=
| FromComponents (column0Row0 column1Row0 column0Row1 column1Row1 : prim)
| FromRowMajorArray (values : value)
| Clone (matrix : value)
| GetColumn (matrix index : value)
| SetColumn (matrix index cartesian : value)
| GetRow (matrix index : value)
| SetRow (matrix index cartesian : value)
| Multiply (left right : value)
| MultiplyByVector (matrix cartesian : value)
| MultiplyByScalar (matrix scalar : value)
| Negate (matrix : value)
| Transpose (matrix : value).

Definition invoke (c : call) (result : value) : M value :=
  match c with
  | FromComponents a b c d => fromComponents a b c d result
  | FromRowMajorArray values => fromRowMajorArray values result
  | Clone matrix => clone matrix result
  | GetColumn matrix index => getColumn matrix index result
  | SetColumn matrix index cartesian => setColumn matrix index cartesian result
  | GetRow matrix index => getRow matrix index result
  | SetRow matrix index cartesian => setRow matrix index cartesian result
  | Multiply lhs rhs => multiply lhs rhs result
  | MultiplyByVector matrix cartesian => multiplyByVector matrix cartesian result
  | MultiplyByScalar matrix scalar => multiplyByScalar matrix scalar result
  | Negate matrix => negate matrix result
  | Transpose matrix => transpose matrix result
  end.

Definition returns_vector (c : call) : bool :=
  match c with
  | GetColumn _ _ | GetRow _ _ | MultiplyByVector _ _ => true
  | _ => false
  end.

(** What a call leaves in the object it returns: the four components of a
    matrix, or the two coordinates of a vector. *)
Definition observe (c : call) (h : heap) (v : value) : option (list prim) :=
  if returns_vector c then
    match coordinates h v with
    | Some (x, y) => Some [x; y]
    | None => None
    end
  else
    match components h v with
    | Some (c0, c1, c2, c3) => Some [c0; c1; c2; c3]
    | None => None
    end.

(** A result object a call can write to. *)
Definition accepts (h : heap) (c : call) (result : value) : Prop :=
  if returns_vector c then writable_vector h result else writable_matrix h result.

(** The input array of [fromRowMajorArray] is not the array the result
    object itself is stored in. *)
Definition input_apart (h : heap) (c : call) (result : value) : Prop :=
  match c with
  | FromRowMajorArray (VRef a) => storage h result <> Some a
  | _ => True
  end.

(** The object arguments of a call are objects of the expected kind. *)
Definition well_typed (h : heap) (c : call) : Prop :=
  match c with
  | FromComponents _ _ _ _ => True
  | FromRowMajorArray _ => True
  | Clone m | Negate m | Transpose m => is_matrix h m
  | GetColumn m _ | GetRow m _ | MultiplyByScalar m _ => is_matrix h m
  | SetColumn m _ v | SetRow m _ v | MultiplyByVector m v => is_matrix h m /\ is_vector h v
  | Multiply lhs rhs => is_matrix h lhs /\ is_matrix h rhs
  end.

(** The arguments that are not objects pass the checks of the call: the
    index is a number the guard lets through, the scalar is a number, the
    input of [fromRowMajorArray] is an array. *)
Definition valid_scalars (h : heap) (c : call) : Prop :=
  match c with
  | FromRowMajorArray v => exists a es, v = VRef a /\ elements h a = Some es
  | GetColumn _ i | GetRow _ i | SetColumn _ i _ | SetRow _ i _ =>
      exists x, i = VPrim (PNumber x) /\ ltb x zero || gtb x one = false
  | MultiplyByScalar _ s => exists x, s = VPrim (PNumber x)
  | _ => True
  end.

(** The two call modes agree: whenever the allocating call returns, the
    call that is given [result] returns [result], holding the values the
    allocating call's fresh object holds. *)
Definition modes_agree (h : heap) (c : call) (result : value) : Prop :=
  forall out h1,
    invoke c undefined h = (Ok out, h1) ->
    exists h2 vs,
      invoke c result h = (Ok result, h2) /\
      observe c h1 out = Some vs /\ observe c h2 result = Some vs.

(** *** A matrix to try things on *)

(** [M = Matrix2.fromComponents(1, 2, 3, 4)], built once the module is loaded. *)
Definition example : outcome value * heap :=
  fromComponents (num 1) (num 2) (num 3) (num 4) undefined loaded_heap.
Definition example_heap : heap := snd example.
Definition example_M : value :=
  match fst example with
  | Ok v => v
  | Throw _ => undefined
  end.
(** The array [M.values]. *)
Definition example_values : value :=
  match storage example_heap example_M with
  | Some a => VRef a
  | None => undefined
  end.

(** [M.values], then an array of two elements, then a vector. *)
Definition example_short : outcome value * heap :=
  array_literal [num 1; num 2] example_heap.
Definition example_short_array : value :=
  match fst example_short with
  | Ok v => v
  | Throw _ => undefined
  end.
Definition example_vector : outcome value * heap :=
  new_Cartesian2 (num 5) (num 6) example_heap.
Definition example_V : value :=
  match fst example_vector with
  | Ok v => v
  | Throw _ => undefined
  end.

(** [N = Matrix2.clone(M)]: a second instance with the components of [M]. *)
Definition example_twin : outcome value * heap := clone example_M undefined example_heap.
Definition example_N : value :=
  match fst example_twin with
  | Ok v => v
  | Throw _ => undefined
  end.

(** [U = Matrix2.fromComponents(0, 0, Infinity, 0)]. *)
Definition example_unbounded : outcome value * heap :=
  fromComponents (num 0) (num 0) (PNumber Infinity) (num 0) undefined loaded_heap.
Definition example_U : value :=
  match fst example_unbounded with
  | Ok v => v
  | Throw _ => undefined
  end.

(** [W = Matrix2.clone(U)]. *)
Definition example_unbounded_twin : outcome value * heap :=
  clone example_U undefined (snd example_unbounded).
Definition example_W : value :=
  match fst example_unbounded_twin with
  | Ok v => v
  | Throw _ => undefined
  end.

(** Does a run return normally? *)
Definition returns {A} (r : outcome A * heap) : bool :=
  match fst r with
  | Ok _ => true
  | Throw _ => false
  end.

(** Component by component, [===]. *)
Definition components_equal (c c' : prim * prim * prim * prim) : bool :=
  let '(a0, a1, a2, a3) := c in
  let '(b0, b1, b2, b3) := c' in
  strict_equals a0 b0 && strict_equals a1 b1 && strict_equals a2 b2 && strict_equals a3 b3.

(** *** Lines of a string *)

Definition is_newline (c : ascii) : bool := Ascii.eqb c (ascii_of_nat 10).

(** The lines of a string: the pieces between its newline characters. *)
Fixpoint split_lines (s : string) : list string :=
  match s with
  | EmptyString => [EmptyString]
  | String c s' =>
      if is_newline c then EmptyString :: split_lines s'
      else
        match split_lines s' with
        | [] => [String c EmptyString]
        | l :: ls => String c l :: ls
        end
  end.

Fixpoint no_newline (s : string) : bool :=
  match s with
  | EmptyString => true
  | String c s' => negb (is_newline c) && no_newline s'
  end.

(** One row as [toString] prints it. *)
Definition row_text (x y : prim) : string :=
  ("(" ++ prim_to_string x ++ ", " ++ prim_to_string y ++ ")")%string.

(** *** The effect of array reads and writes on the stored data *)

Definition key_read (es : list prim) (ps : list (string * prim)) (x : number) : prim :=
  match to_array_index x with
  | Some i => elems_get es i
  | None => named_get ps (number_to_string x)
  end.

Definition elems_after (es : list prim) (x : number) (p : prim) : list prim :=
  match to_array_index x with
  | Some i => elems_set es i p
  | None => es
  end.

Definition named_after (ps : list (string * prim)) (x : number) (p : prim) :
    list (string * prim) :=
  match to_array_index x with
  | Some _ => ps
  | None => named_set ps (number_to_string x) p
  end.

(** The array after [a[x] = p] for a computed number [x]. *)
Definition key_write (es : list prim) (ps : list (string * prim)) (x : number) (p : prim) :
    object :=
  OArray (elems_after es x p) (named_after ps x p).

(** The elements after [a[0] = c0; a[1] = c1; a[2] = c2; a[3] = c3]. *)
Definition set4 (es : list prim) (c : prim * prim * prim * prim) : list prim :=
  let '(c0, c1, c2, c3) := c in
  elems_set (elems_set (elems_set (elems_set es 0 c0) 1 c1) 2 c2) 3 c3.


(** ** Further observations *)

(** A component that is a number, and one that is a number in canonical
    binary64 form (every number the language produces is). *)
Definition is_number (p : prim) : Prop := exists x, p = PNumber x.
Definition canonical (p : prim) : Prop :=
  exists x, p = PNumber x /\ valid_binary prec emax x = true.

Definition each (P : prim -> Prop) (c : prim * prim * prim * prim) : Prop :=
  let '(c0, c1, c2, c3) := c in P c0 /\ P c1 /\ P c2 /\ P c3.

Definition minus_one : number := Eval vm_compute in of_Z (-1).

(** The index guard, as a test: [typeof index === 'number'] and neither
    [index < 0] nor [index > 1]. *)
Definition accepted_index (v : value) : bool :=
  match v with
  | VPrim (PNumber i) => negb (ltb i zero || gtb i one)
  | _ => false
  end.

Definition is_number_value (v : value) : bool :=
  match v with
  | VPrim (PNumber _) => true
  | _ => false
  end.

(** The argument checks a call starts with, as a test: a required object
    argument is [undefined], the index fails the guard, or the scalar is
    not a number. *)
Definition rejected (c : call) : bool :=
  match c with
  | FromComponents _ _ _ _ | FromRowMajorArray _ => false
  | Clone m | Negate m | Transpose m => is_undefined m
  | GetColumn m i | GetRow m i => is_undefined m || negb (accepted_index i)
  | SetColumn m i v | SetRow m i v =>
      is_undefined m || is_undefined v || negb (accepted_index i)
  | Multiply lhs rhs => is_undefined lhs || is_undefined rhs
  | MultiplyByVector m v => is_undefined m || is_undefined v
  | MultiplyByScalar m s => is_undefined m || negb (is_number_value s)
  end.

(** The one object a call writes to when it is given [result]: the array
    behind a result matrix, or the result vector itself. *)
Definition target (h : heap) (c : call) (result : value) : option loc :=
  if returns_vector c then
    match result with
    | VRef l => Some l
    | VPrim _ => None
    end
  else storage h result.

(** [h1] is [h] with new objects added after it and nothing else changed. *)
Definition grown (h h1 : heap) : Prop := exists k, h1 = h ++ k.

(** A reference to an object that did not exist in [h]. *)
Definition fresh (h : heap) (v : value) : Prop :=
  exists l, v = VRef l /\ (length h <= l)%nat.

(** Coordinate by coordinate, [===]. *)
Definition coordinates_equal (xy xy' : prim * prim) : bool :=
  strict_equals (fst xy) (fst xy') && strict_equals (snd xy) (snd xy').

(** The sum of products of two pairs: a row times a column. *)
Definition dot (xy xy' : prim * prim) : prim :=
  js_add (js_mul (fst xy) (fst xy')) (js_mul (snd xy) (snd xy')).


(** Component [n] of a matrix, [values[n]]. *)
Definition component (n : nat) (c : prim * prim * prim * prim) : prim :=
  let '(c0, c1, c2, c3) := c in
  match n with
  | 0%nat => c0
  | 1%nat => c1
  | 2%nat => c2
  | _ => c3
  end.

(** Column [i] and row [i] as the accessors address them. *)
Definition column (i : nat) (c : prim * prim * prim * prim) : prim * prim :=
  (component i c, component (i + 2) c).
Definition row (i : nat) (c : prim * prim * prim * prim) : prim * prim :=
  (component (i * 2) c, component (i * 2 + 1) c).

(** The components with column [i], or row [i], replaced. *)
Definition with_column (i : nat) (xy : prim * prim) (c : prim * prim * prim * prim) :
    prim * prim * prim * prim :=
  let '(c0, c1, c2, c3) := c in
  match i with
  | 0%nat => (fst xy, c1, snd xy, c3)
  | _ => (c0, fst xy, c2, snd xy)
  end.
Definition with_row (i : nat) (xy : prim * prim) (c : prim * prim * prim * prim) :
    prim * prim * prim * prim :=
  let '(c0, c1, c2, c3) := c in
  match i with
  | 0%nat => (fst xy, snd xy, c2, c3)
  | _ => (c0, c1, fst xy, snd xy)
  end.

(** Every matrix and vector of [h] is still there in [h1], unchanged. *)
Definition keeps (h h1 : heap) : Prop :=
  (forall v cs, components h v = Some cs -> components h1 v = Some cs) /\
  (forall v xy, coordinates h v = Some xy -> coordinates h1 v = Some xy).


(** [Math.abs(p - q) <= epsilon] *)
Definition within (eps : number) (p q : prim) : bool := leb (Math_abs (js_sub p q)) eps.

(** A component whose numeric value is an infinity or NaN. *)
Definition unbounded (p : prim) : bool :=
  match to_number p with
  | S754_infinity _ | S754_nan => true
  | _ => false
  end.


(** * Proofs *)

(** ** Running computations *)

Lemma run_bind {A B} (c : M A) (k : A -> M B) h a h' :
  c h = (Ok a, h') -> bind c k h = k a h'.
Proof. intros H. unfold bind. now rewrite H. Qed.

Lemma bind_inv {A B} (c : M A) (k : A -> M B) h b h2 :
  bind c k h = (Ok b, h2) -> exists a h1, c h = (Ok a, h1) /\ k a h1 = (Ok b, h2).
Proof.
  unfold bind. destruct (c h) as [[a|e] h1]; intros H.
  - eauto.
  - discriminate.
Qed.

Lemma run_read_cell h l c : h !! l = Some c -> read_cell l h = (Ok c, h).
Proof. intros H. unfold read_cell. now rewrite H. Qed.

Lemma read_cell_inv h l c h' : read_cell l h = (Ok c, h') -> h' = h /\ h !! l = Some c.
Proof. unfold read_cell. destruct (h !! l); intros H; now inversion H. Qed.

Lemma run_get_values h l a f :
  h !! l = Some (Cell (OMatrix2 a) f) -> get_values (VRef l) h = (Ok a, h).
Proof. intros H. cbn. now rewrite (run_bind _ _ _ _ _ (run_read_cell _ _ _ H)). Qed.

Lemma run_index_get h a es ps f i :
  h !! a = Some (Cell (OArray es ps) f) -> index_get a i h = (Ok (elems_get es i), h).
Proof. intros H. unfold index_get. now rewrite (run_bind _ _ _ _ _ (run_read_cell _ _ _ H)). Qed.

Lemma run_write_obj h l c o :
  h !! l = Some c -> write_obj l o h = (Ok tt, <[l := Cell o (frozen c)]> h).
Proof. intros H. unfold write_obj. now rewrite H. Qed.

Lemma run_index_set h a es ps i p :
  h !! a = Some (Cell (OArray es ps) false) ->
  index_set a i p h = (Ok tt, <[a := Cell (OArray (elems_set es i p) ps) false]> h).
Proof.
  intros H. unfold index_set. rewrite (run_bind _ _ _ _ _ (run_read_cell _ _ _ H)). cbn.
  now rewrite (run_write_obj _ _ _ _ H).
Qed.

Lemma run_key_get h a es ps f x :
  h !! a = Some (Cell (OArray es ps) f) -> key_get a x h = (Ok (key_read es ps x), h).
Proof.
  intros H. unfold key_get, key_read. destruct (to_array_index x).
  - now apply run_index_get with (ps := ps) (f := f).
  - now rewrite (run_bind _ _ _ _ _ (run_read_cell _ _ _ H)).
Qed.

Lemma run_key_set h a es ps x p :
  h !! a = Some (Cell (OArray es ps) false) ->
  key_set a x p h = (Ok tt, <[a := Cell (key_write es ps x p) false]> h).
Proof.
  intros H. unfold key_set, key_write, elems_after, named_after. destruct (to_array_index x).
  - now apply run_index_set.
  - rewrite (run_bind _ _ _ _ _ (run_read_cell _ _ _ H)). cbn.
    now rewrite (run_write_obj _ _ _ _ H).
Qed.

Lemma run_slice0 h a es ps f :
  h !! a = Some (Cell (OArray es ps) f) ->
  slice0 a h = (Ok (VRef (length h)), h ++ [Cell (OArray es []) false]).
Proof. intros H. unfold slice0. now rewrite (run_bind _ _ _ _ _ (run_read_cell _ _ _ H)). Qed.

Lemma run_isArray_true h a es ps f :
  h !! a = Some (Cell (OArray es ps) f) -> Array_isArray (VRef a) h = (Ok true, h).
Proof. intros H. cbn. now rewrite (run_bind _ _ _ _ _ (run_read_cell _ _ _ H)). Qed.

Lemma isArray_true_inv v h h' :
  Array_isArray v h = (Ok true, h') ->
  h' = h /\ exists a es ps f, v = VRef a /\ h !! a = Some (Cell (OArray es ps) f).
Proof.
  destruct v as [p|l]; cbn; [discriminate|].
  intros H. apply bind_inv in H as (c & h1 & Hc & H).
  apply read_cell_inv in Hc as [-> Hc].
  destruct c as [[es ps|a'|x y] f]; cbn in H; try discriminate.
  inversion H; subst. eauto 10.
Qed.

(** [new Matrix2(a)] for an array [a]. *)
Lemma run_new_Matrix2 h a es ps f :
  h !! a = Some (Cell (OArray es ps) f) ->
  new_Matrix2 (VRef a) h = (Ok (VRef (length h)), h ++ [Cell (OMatrix2 a) false]).
Proof.
  intros H. unfold new_Matrix2. cbn [is_undefined].
  now rewrite (run_bind _ _ _ _ _ (run_isArray_true _ _ _ _ _ H)).
Qed.

Lemma run_get_coord h first l x y f :
  h !! l = Some (Cell (OCartesian2 x y) f) ->
  get_coord first (VRef l) h = (Ok (if first then x else y), h).
Proof. intros H. cbn. now rewrite (run_bind _ _ _ _ _ (run_read_cell _ _ _ H)). Qed.

Lemma run_set_coord h first l x y p :
  h !! l = Some (Cell (OCartesian2 x y) false) ->
  set_coord first (VRef l) p h =
    (Ok tt, <[l := Cell (if first then OCartesian2 p y else OCartesian2 x p) false]> h).
Proof.
  intros H. cbn. rewrite (run_bind _ _ _ _ _ (run_read_cell _ _ _ H)). cbn.
  now rewrite (run_write_obj _ _ _ _ H).
Qed.

(** ** Array elements *)

Lemma elems_get_set es i p j :
  elems_get (elems_set es i p) j = if decide (i = j) then p else elems_get es j.
Proof.
  unfold elems_get, elems_set. destruct (decide (i < length es)%nat) as [Hlt|Hge].
  - destruct (decide (i = j)) as [->|Hne].
    + now rewrite list_lookup_insert_eq.
    + now rewrite list_lookup_insert_ne.
  - destruct (decide (i = j)) as [->|Hne].
    + rewrite app_assoc, lookup_app_r; rewrite length_app, length_replicate; [|lia].
      replace (j - (length es + (j - length es)))%nat with 0%nat by lia. reflexivity.
    + destruct (decide (j < length es)%nat).
      * now rewrite lookup_app_l.
      * rewrite (lookup_ge_None_2 es j) by lia.
        rewrite lookup_app_r by lia.
        destruct (decide (j < i)%nat).
        -- rewrite lookup_app_l by (rewrite length_replicate; lia).
           rewrite lookup_replicate_2 by lia. reflexivity.
        -- rewrite lookup_ge_None_2; [reflexivity|].
           rewrite length_app, length_replicate. cbn. lia.
Qed.

Lemma four_set4 es c : four (set4 es c) = c.
Proof.
  destruct c as [[[c0 c1] c2] c3]. unfold four, set4.
  rewrite !elems_get_set. reflexivity.
Qed.

(** ** Symbolic execution *)

Ltac note_bounds :=
  repeat match goal with
  | H : ?h !! ?l = Some _ |- _ =>
      lazymatch goal with
      | _ : (l < length h)%nat |- _ => fail
      | _ => pose proof (lookup_lt_Some _ _ _ H)
      end
  end.

Ltac heap_bound := rewrite ?length_insert, ?length_app; cbn [length]; lia.

Ltac heap_lookup :=
  repeat first
    [ eassumption
    | reflexivity
    | apply list_lookup_middle; reflexivity
    | rewrite list_lookup_insert_eq by heap_bound
    | rewrite list_lookup_insert_ne by first [congruence | heap_bound]
    | rewrite lookup_app_l by heap_bound ].

Ltac js_prim :=
  first
    [ eapply run_get_values; heap_lookup
    | eapply run_index_get; heap_lookup
    | eapply run_index_set; heap_lookup
    | eapply run_key_get; heap_lookup
    | eapply run_key_set; heap_lookup
    | eapply run_slice0; heap_lookup
    | eapply run_new_Matrix2; heap_lookup
    | eapply run_get_coord; heap_lookup
    | eapply run_set_coord; heap_lookup
    | eapply run_isArray_true; heap_lookup
    | reflexivity ].

Ltac js_step :=
  first [ erewrite run_bind by js_prim
        | erewrite run_new_Matrix2 by heap_lookup ];
  cbn beta iota zeta.

Ltac js_run := note_bounds; repeat js_step.

Lemma storage_inv h v a :
  storage h v = Some a -> exists l f, v = VRef l /\ h !! l = Some (Cell (OMatrix2 a) f).
Proof.
  destruct v as [p|l]; cbn; [discriminate|].
  destruct (h !! l) as [[[es ps|a'|x y] f]|] eqn:E; try discriminate.
  intros H; inversion H; subst. eauto.
Qed.

Lemma components_inv h v c :
  components h v = Some c ->
  exists l a f es ps fa, v = VRef l /\ h !! l = Some (Cell (OMatrix2 a) f) /\
    h !! a = Some (Cell (OArray es ps) fa) /\ c = four es.
Proof.
  unfold components. destruct (storage h v) as [a|] eqn:Hs; [|discriminate].
  apply storage_inv in Hs as (l & f & -> & Hl).
  unfold elements. destruct (h !! a) as [[[es ps|a'|x y] fa]|] eqn:Ha; try discriminate.
  intros H; inversion H; subst. eauto 12.
Qed.

Lemma components_intro h l a f es ps fa :
  h !! l = Some (Cell (OMatrix2 a) f) -> h !! a = Some (Cell (OArray es ps) fa) ->
  components h (VRef l) = Some (four es).
Proof. intros Hl Ha. unfold components, storage, elements. now rewrite Hl, Ha. Qed.

(** A freshly built matrix holds the elements of its array literal. *)
Lemma components_fresh h es :
  components ((h ++ [Cell (OArray es []) false]) ++ [Cell (OMatrix2 (length h)) false])
    (VRef (length (h ++ [Cell (OArray es []) false]))) = Some (four es).
Proof.
  eapply components_intro.
  - apply list_lookup_middle. reflexivity.
  - rewrite lookup_app_l by heap_bound. apply list_lookup_middle. reflexivity.
Qed.


(** After the backing array of a matrix is overwritten, the matrix holds
    the new elements. *)
Lemma components_written h l a f es0 ps0 fa0 es ps fa :
  h !! l = Some (Cell (OMatrix2 a) f) -> h !! a = Some (Cell (OArray es0 ps0) fa0) ->
  components (<[a := Cell (OArray es ps) fa]> h) (VRef l) = Some (four es).
Proof.
  intros Hl Ha. note_bounds.
  eapply components_intro; heap_lookup.
Qed.

(** ** The two call modes, operation by operation *)

Lemma writable_matrix_inv h r :
  writable_matrix h r ->
  exists lr ra fr res rps, r = VRef lr /\ h !! lr = Some (Cell (OMatrix2 ra) fr) /\
    h !! ra = Some (Cell (OArray res rps) false).
Proof.
  intros (a & es & ps & Hs & Ha). apply storage_inv in Hs as (l & f & -> & Hl). eauto 10.
Qed.

Ltac same_array a ra :=
  destruct (decide (a = ra)) as [->|?];
  [ repeat match goal with
    | H1 : ?h !! ?x = Some _, H2 : ?h !! ?x = Some _ |- _ =>
        rewrite H1 in H2; inversion H2; subst; clear H2
    end | ].


Ltac js_fresh := do 2 eexists; split; [reflexivity | apply components_fresh].

Ltac js_written :=
  eexists; split; [reflexivity|];
  rewrite ?list_insert_insert_eq;
  erewrite components_written by eassumption;
  unfold four; rewrite ?elems_get_set; reflexivity.

Ltac open_result H :=
  apply writable_matrix_inv in H as (?lr & ?ra & ?fr & ?res & ?rps & -> & ?Hr & ?Hra).

Section MatrixModes.
Variables (h : heap) (l a : loc) (f fa : bool) (es : list prim) (ps : list (string * prim)).
Hypothesis Hl : h !! l = Some (Cell (OMatrix2 a) f).
Hypothesis Ha : h !! a = Some (Cell (OArray es ps) fa).

Lemma negate_modes :
  let c := (js_neg (elems_get es 0), js_neg (elems_get es 1),
            js_neg (elems_get es 2), js_neg (elems_get es 3)) in
  (exists out h1, negate (VRef l) undefined h = (Ok out, h1) /\ components h1 out = Some c) /\
  (forall r, writable_matrix h r ->
     exists h2, negate (VRef l) r h = (Ok r, h2) /\ components h2 r = Some c).
Proof.
  split.
  - unfold negate, array_literal, alloc. cbn [is_undefined]. js_run. js_fresh.
  - intros r Hw. open_result Hw. unfold negate. cbn [is_undefined].
    same_array a ra; js_run; js_written.
Qed.

Lemma transpose_modes :
  let c := (elems_get es 0, elems_get es 2, elems_get es 1, elems_get es 3) in
  (exists out h1, transpose (VRef l) undefined h = (Ok out, h1) /\ components h1 out = Some c) /\
  (forall r, writable_matrix h r ->
     exists h2, transpose (VRef l) r h = (Ok r, h2) /\ components h2 r = Some c).
Proof.
  split.
  - unfold transpose, array_literal, alloc. cbn [is_undefined]. js_run. js_fresh.
  - intros r Hw. open_result Hw. unfold transpose. cbn [is_undefined].
    js_run; js_written.
Qed.

Lemma clone_modes :
  (exists out h1, clone (VRef l) undefined h = (Ok out, h1) /\ components h1 out = Some (four es)) /\
  (forall r, writable_matrix h r ->
     exists h2, clone (VRef l) r h = (Ok r, h2) /\ components h2 r = Some (four es)).
Proof.
  split.
  - unfold clone. cbn [is_undefined]. js_run. js_fresh.
  - intros r Hw. open_result Hw. unfold clone. cbn [is_undefined].
    same_array a ra; js_run; js_written.
Qed.

Lemma multiplyByScalar_modes s :
  let c := (js_mul (elems_get es 0) (PNumber s), js_mul (elems_get es 1) (PNumber s),
            js_mul (elems_get es 2) (PNumber s), js_mul (elems_get es 3) (PNumber s)) in
  (exists out h1, multiplyByScalar (VRef l) (VPrim (PNumber s)) undefined h = (Ok out, h1) /\
     components h1 out = Some c) /\
  (forall r, writable_matrix h r ->
     exists h2, multiplyByScalar (VRef l) (VPrim (PNumber s)) r h = (Ok r, h2) /\
       components h2 r = Some c).
Proof.
  split.
  - unfold multiplyByScalar, array_literal, alloc. cbn [is_undefined]. js_run. js_fresh.
  - intros r Hw. open_result Hw. unfold multiplyByScalar. cbn [is_undefined].
    same_array a ra; js_run; js_written.
Qed.

End MatrixModes.

Lemma clone_alloc_run h l a f es ps fa :
  h !! l = Some (Cell (OMatrix2 a) f) -> h !! a = Some (Cell (OArray es ps) fa) ->
  clone (VRef l) undefined h =
    (Ok (VRef (length (h ++ [Cell (OArray es []) false]))),
     (h ++ [Cell (OArray es []) false]) ++ [Cell (OMatrix2 (length h)) false]).
Proof. intros Hl Ha. unfold clone. cbn [is_undefined]. js_run. reflexivity. Qed.

Lemma clone_result_run h l a f es ps fa lr ra fr res rps :
  h !! l = Some (Cell (OMatrix2 a) f) -> h !! a = Some (Cell (OArray es ps) fa) ->
  h !! lr = Some (Cell (OMatrix2 ra) fr) -> h !! ra = Some (Cell (OArray res rps) false) ->
  clone (VRef l) (VRef lr) h =
    (Ok (VRef lr), <[ra := Cell (OArray (set4 res (four es)) rps) false]> h).
Proof.
  intros Hl Ha Hr Hra. unfold clone. cbn [is_undefined].
  same_array a ra; js_run; rewrite !list_insert_insert_eq; unfold set4, four;
    rewrite ?elems_get_set; reflexivity.
Qed.

Section TwoMatrices.
Variables (h : heap) (l a l' a' : loc) (f fa f' fa' : bool).
Variables (es es' : list prim) (ps ps' : list (string * prim)).
Hypothesis Hl : h !! l = Some (Cell (OMatrix2 a) f).
Hypothesis Ha : h !! a = Some (Cell (OArray es ps) fa).
Hypothesis Hl' : h !! l' = Some (Cell (OMatrix2 a') f').
Hypothesis Ha' : h !! a' = Some (Cell (OArray es' ps') fa').

Lemma multiply_modes :
  let L i := elems_get es i in
  let R i := elems_get es' i in
  let c := (js_add (js_mul (L 0%nat) (R 0%nat)) (js_mul (L 1%nat) (R 2%nat)),
            js_add (js_mul (L 0%nat) (R 1%nat)) (js_mul (L 1%nat) (R 3%nat)),
            js_add (js_mul (L 2%nat) (R 0%nat)) (js_mul (L 3%nat) (R 2%nat)),
            js_add (js_mul (L 2%nat) (R 1%nat)) (js_mul (L 3%nat) (R 3%nat))) in
  (exists out h1, multiply (VRef l) (VRef l') undefined h = (Ok out, h1) /\
     components h1 out = Some c) /\
  (forall r, writable_matrix h r ->
     exists h2, multiply (VRef l) (VRef l') r h = (Ok r, h2) /\ components h2 r = Some c).
Proof.
  split.
  - unfold multiply, array_literal, alloc. cbn [is_undefined]. js_run. js_fresh.
  - intros r Hw. open_result Hw. unfold multiply. cbn [is_undefined].
    js_run; js_written.
Qed.

End TwoMatrices.

Lemma fromComponents_modes h c0 c1 c2 c3 :
  (exists out h1, fromComponents c0 c1 c2 c3 undefined h = (Ok out, h1) /\
     components h1 out = Some (c0, c1, c2, c3)) /\
  (forall r, writable_matrix h r ->
     exists h2, fromComponents c0 c1 c2 c3 r h = (Ok r, h2) /\
       components h2 r = Some (c0, c1, c2, c3)).
Proof.
  split.
  - unfold fromComponents, array_literal, alloc. cbn [is_undefined]. js_run. js_fresh.
  - intros r Hw. open_result Hw. unfold fromComponents. cbn [is_undefined].
    js_run; js_written.
Qed.

Lemma fromRowMajorArray_modes h a es ps fa :
  h !! a = Some (Cell (OArray es ps) fa) ->
  let c := (elems_get es 0, elems_get es 2, elems_get es 1, elems_get es 3) in
  (exists out h1, fromRowMajorArray (VRef a) undefined h = (Ok out, h1) /\
     components h1 out = Some c) /\
  (forall r, writable_matrix h r -> storage h r <> Some a ->
     exists h2, fromRowMajorArray (VRef a) r h = (Ok r, h2) /\ components h2 r = Some c).
Proof.
  intros Ha. split.
  - unfold fromRowMajorArray, array_literal, alloc. js_run. cbn [negb is_undefined]. js_run.
    js_fresh.
  - intros r Hw Hapart. open_result Hw. unfold fromRowMajorArray. js_run.
    cbn [negb is_undefined].
    assert (ra <> a).
    { intros ->. apply Hapart. cbn. now rewrite Hr. }
    js_run; js_written.
Qed.

Lemma coordinates_fresh h x y :
  coordinates (h ++ [Cell (OCartesian2 x y) false]) (VRef (length h)) = Some (x, y).
Proof. cbn. now rewrite (list_lookup_middle h [] _ _ eq_refl). Qed.

Lemma coordinates_written h l c x y f :
  h !! l = Some c ->
  coordinates (<[l := Cell (OCartesian2 x y) f]> h) (VRef l) = Some (x, y).
Proof. intros H. note_bounds. cbn. now rewrite list_lookup_insert_eq. Qed.

Ltac open_vector H := destruct H as (?lr & ?x0 & ?y0 & -> & ?Hr).

Ltac js_vector_fresh :=
  unfold new_Cartesian2, alloc; do 2 eexists; split; [reflexivity | apply coordinates_fresh].

Ltac js_vector_written :=
  eexists; split; [reflexivity|];
  rewrite ?list_insert_insert_eq; eapply coordinates_written; eassumption.

Section VectorModes.
Variables (h : heap) (l a : loc) (f fa : bool) (es : list prim) (ps : list (string * prim)).
Hypothesis Hl : h !! l = Some (Cell (OMatrix2 a) f).
Hypothesis Ha : h !! a = Some (Cell (OArray es ps) fa).

Lemma check_index_ok i h' :
  ltb i zero || gtb i one = false -> check_index (VPrim (PNumber i)) h' = (Ok i, h').
Proof. intros H. unfold check_index. now rewrite H. Qed.

Lemma getColumn_modes i :
  ltb i zero || gtb i one = false ->
  let xy := (key_read es ps i, key_read es ps (add i (of_Z 2))) in
  (exists out h1, getColumn (VRef l) (VPrim (PNumber i)) undefined h = (Ok out, h1) /\
     coordinates h1 out = Some xy) /\
  (forall r, writable_vector h r ->
     exists h2, getColumn (VRef l) (VPrim (PNumber i)) r h = (Ok r, h2) /\
       coordinates h2 r = Some xy).
Proof.
  intros Hi. split.
  - unfold getColumn. cbn [is_undefined]. rewrite (run_bind _ _ _ _ _ (check_index_ok _ _ Hi)).
    js_run. js_vector_fresh.
  - intros r Hw. open_vector Hw. unfold getColumn. cbn [is_undefined].
    rewrite (run_bind _ _ _ _ _ (check_index_ok _ _ Hi)).
    js_run. js_vector_written.
Qed.

Lemma getRow_modes i :
  ltb i zero || gtb i one = false ->
  let xy := (key_read es ps (mul i (of_Z 2)),
             key_read es ps (add (mul i (of_Z 2)) (of_Z 1))) in
  (exists out h1, getRow (VRef l) (VPrim (PNumber i)) undefined h = (Ok out, h1) /\
     coordinates h1 out = Some xy) /\
  (forall r, writable_vector h r ->
     exists h2, getRow (VRef l) (VPrim (PNumber i)) r h = (Ok r, h2) /\
       coordinates h2 r = Some xy).
Proof.
  intros Hi. split.
  - unfold getRow. cbn [is_undefined]. rewrite (run_bind _ _ _ _ _ (check_index_ok _ _ Hi)).
    js_run. js_vector_fresh.
  - intros r Hw. open_vector Hw. unfold getRow. cbn [is_undefined].
    rewrite (run_bind _ _ _ _ _ (check_index_ok _ _ Hi)).
    js_run. js_vector_written.
Qed.

Variables (lc : loc) (cx cy : prim) (fc : bool).
Hypothesis Hc : h !! lc = Some (Cell (OCartesian2 cx cy) fc).

Lemma multiplyByVector_modes :
  let xy := (js_add (js_mul (elems_get es 0) cx) (js_mul (elems_get es 1) cy),
             js_add (js_mul (elems_get es 2) cx) (js_mul (elems_get es 3) cy)) in
  (exists out h1, multiplyByVector (VRef l) (VRef lc) undefined h = (Ok out, h1) /\
     coordinates h1 out = Some xy) /\
  (forall r, writable_vector h r ->
     exists h2, multiplyByVector (VRef l) (VRef lc) r h = (Ok r, h2) /\
       coordinates h2 r = Some xy).
Proof.
  split.
  - unfold multiplyByVector, get_x, get_y. cbn [is_undefined]. js_run. js_vector_fresh.
  - intros r Hw. open_vector Hw. unfold multiplyByVector, get_x, get_y, set_x, set_y.
    cbn [is_undefined]. js_run. js_vector_written.
Qed.

End VectorModes.

Lemma four_elems_after es es' x p :
  four es = four es' -> four (elems_after es x p) = four (elems_after es' x p).
Proof.
  unfold elems_after. destruct (to_array_index x) as [i|]; [|easy].
  unfold four. intros H. inversion H. rewrite !elems_get_set.
  repeat match goal with H : elems_get _ _ = elems_get _ _ |- _ => rewrite H; clear H end.
  reflexivity.
Qed.

Section SetModes.
Variables (h : heap) (l a : loc) (f fa : bool) (es : list prim) (ps : list (string * prim)).
Hypothesis Hl : h !! l = Some (Cell (OMatrix2 a) f).
Hypothesis Ha : h !! a = Some (Cell (OArray es ps) fa).
Variables (lc : loc) (cx cy : prim) (fc : bool).
Hypothesis Hc : h !! lc = Some (Cell (OCartesian2 cx cy) fc).

Lemma setColumn_modes i :
  ltb i zero || gtb i one = false ->
  let c := four (elems_after (elems_after es i cx) (add i (of_Z 2)) cy) in
  (exists out h1, setColumn (VRef l) (VPrim (PNumber i)) (VRef lc) undefined h = (Ok out, h1) /\
     components h1 out = Some c) /\
  (forall r, writable_matrix h r ->
     exists h2, setColumn (VRef l) (VPrim (PNumber i)) (VRef lc) r h = (Ok r, h2) /\
       components h2 r = Some c).
Proof.
  intros Hi. split.
  - unfold setColumn, get_x, get_y. cbn [is_undefined].
    rewrite (run_bind _ _ _ _ _ (check_index_ok _ _ Hi)).
    rewrite (run_bind _ _ _ _ _ (clone_alloc_run _ _ _ _ _ _ _ Hl Ha)).
    js_run. unfold key_write. do 2 eexists. split; [reflexivity|].
    rewrite ?list_insert_insert_eq.
    erewrite components_written by heap_lookup. reflexivity.
  - intros r Hw. open_result Hw. unfold setColumn, get_x, get_y. cbn [is_undefined].
    rewrite (run_bind _ _ _ _ _ (check_index_ok _ _ Hi)).
    rewrite (run_bind _ _ _ _ _ (clone_result_run _ _ _ _ _ _ _ _ _ _ _ _ Hl Ha Hr Hra)).
    js_run. unfold key_write. eexists. split; [reflexivity|].
    rewrite ?list_insert_insert_eq.
    erewrite components_written by eassumption.
    f_equal. do 2 apply four_elems_after. apply four_set4.
Qed.

Lemma setRow_modes i :
  ltb i zero || gtb i one = false ->
  let c := four (elems_after (elems_after es (mul i (of_Z 2)) cx)
                   (add (mul i (of_Z 2)) (of_Z 1)) cy) in
  (exists out h1, setRow (VRef l) (VPrim (PNumber i)) (VRef lc) undefined h = (Ok out, h1) /\
     components h1 out = Some c) /\
  (forall r, writable_matrix h r ->
     exists h2, setRow (VRef l) (VPrim (PNumber i)) (VRef lc) r h = (Ok r, h2) /\
       components h2 r = Some c).
Proof.
  intros Hi. split.
  - unfold setRow, get_x, get_y. cbn [is_undefined].
    rewrite (run_bind _ _ _ _ _ (check_index_ok _ _ Hi)).
    rewrite (run_bind _ _ _ _ _ (clone_alloc_run _ _ _ _ _ _ _ Hl Ha)).
    js_run. unfold key_write. do 2 eexists. split; [reflexivity|].
    rewrite ?list_insert_insert_eq.
    erewrite components_written by heap_lookup. reflexivity.
  - intros r Hw. open_result Hw. unfold setRow, get_x, get_y. cbn [is_undefined].
    rewrite (run_bind _ _ _ _ _ (check_index_ok _ _ Hi)).
    rewrite (run_bind _ _ _ _ _ (clone_result_run _ _ _ _ _ _ _ _ _ _ _ _ Hl Ha Hr Hra)).
    js_run. unfold key_write. eexists. split; [reflexivity|].
    rewrite ?list_insert_insert_eq.
    erewrite components_written by eassumption.
    f_equal. do 2 apply four_elems_after. apply four_set4.
Qed.

End SetModes.

(** ** The two call modes agree *)

Lemma is_matrix_inv h v :
  is_matrix h v ->
  exists l a f es ps fa, v = VRef l /\ h !! l = Some (Cell (OMatrix2 a) f) /\
    h !! a = Some (Cell (OArray es ps) fa).
Proof.
  intros [c Hc]. apply components_inv in Hc as (l & a & f & es & ps & fa & -> & Hl & Ha & _).
  eauto 10.
Qed.

Lemma is_vector_inv h v :
  is_vector h v -> exists l x y f, v = VRef l /\ h !! l = Some (Cell (OCartesian2 x y) f).
Proof.
  intros [c Hc]. destruct v as [p|l]; cbn in Hc; [discriminate|].
  destruct (h !! l) as [[[es ps|a'|x y] f]|] eqn:E; try discriminate. eauto 10.
Qed.

Lemma check_index_inv index h i h' :
  check_index index h = (Ok i, h') ->
  index = VPrim (PNumber i) /\ ltb i zero || gtb i one = false.
Proof.
  unfold check_index. destruct index as [[|x]|l]; try discriminate.
  destruct (ltb x zero || gtb x one) eqn:E; [discriminate|].
  intros H. inversion H; subst. auto.
Qed.

(** From the lemma of one operation to the agreement of its two modes. *)
Lemma agree_matrix (run : value -> M value) h c r :
  (exists out h1, run undefined h = (Ok out, h1) /\ components h1 out = Some c) ->
  (exists h2, run r h = (Ok r, h2) /\ components h2 r = Some c) ->
  forall out h1, run undefined h = (Ok out, h1) ->
    exists h2 vs, run r h = (Ok r, h2) /\
      match components h1 out with Some (c0, c1, c2, c3) => Some [c0; c1; c2; c3] | None => None end = Some vs /\
      match components h2 r with Some (c0, c1, c2, c3) => Some [c0; c1; c2; c3] | None => None end = Some vs.
Proof.
  intros (out' & h1' & Hrun & Hc) (h2 & Hres & Hc2) out h1 H.
  rewrite Hrun in H. inversion H; subst.
  destruct c as [[[c0 c1] c2] c3].
  exists h2, [c0; c1; c2; c3]. now rewrite Hc, Hc2.
Qed.

Lemma agree_vector (run : value -> M value) h xy r :
  (exists out h1, run undefined h = (Ok out, h1) /\ coordinates h1 out = Some xy) ->
  (exists h2, run r h = (Ok r, h2) /\ coordinates h2 r = Some xy) ->
  forall out h1, run undefined h = (Ok out, h1) ->
    exists h2 vs, run r h = (Ok r, h2) /\
      match coordinates h1 out with Some (x, y) => Some [x; y] | None => None end = Some vs /\
      match coordinates h2 r with Some (x, y) => Some [x; y] | None => None end = Some vs.
Proof.
  intros (out' & h1' & Hrun & Hc) (h2 & Hres & Hc2) out h1 H.
  rewrite Hrun in H. inversion H; subst.
  destruct xy as [x y].
  exists h2, [x; y]. now rewrite Hc, Hc2.
Qed.

(** C2 (amended).  For every operation that takes an optional [result] and
    every well-typed input on which the allocating call returns, the call
    that is given a writable result object returns that object, holding
    exactly the values the fresh object of the allocating call holds --
    provided the input array of [fromRowMajorArray] is not the array the
    result object itself is stored in.  The result may be one of the
    inputs, as in [transpose(M, M)]. *)
Theorem result_mode_agrees (h : heap) (c : call) (result : value) :
  well_typed h c -> accepts h c result -> input_apart h c result ->
  modes_agree h c result.
Proof.
  intros Hty Hacc Hapart.
  destruct c; unfold modes_agree, observe, accepts in *; cbn [returns_vector invoke well_typed] in *.
  - (* fromComponents *)
    destruct (fromComponents_modes h column0Row0 column1Row0 column0Row1 column1Row1) as [Ha Hr].
    apply (agree_matrix (fromComponents _ _ _ _)) with (c := (column0Row0, column1Row0, column0Row1, column1Row1)); auto.
  - (* fromRowMajorArray *)
    intros out h1 H.
    assert (exists a es ps fa, values = VRef a /\ h !! a = Some (Cell (OArray es ps) fa))
      as (a & es & ps & fa & -> & Ha).
    { unfold fromRowMajorArray in H. apply bind_inv in H as (b & h' & Hb & H).
      destruct b; [|discriminate].
      apply isArray_true_inv in Hb as [_ Hb]. exact Hb. }
    destruct (fromRowMajorArray_modes h a es ps fa Ha) as [Hal Hr].
    eapply (agree_matrix (fromRowMajorArray _)); eauto.
  - (* clone *)
    apply is_matrix_inv in Hty as (l & a & f & es & ps & fa & -> & Hl & Ha).
    destruct (clone_modes h l a f fa es ps Hl Ha) as [Hal Hr].
    eapply (agree_matrix (clone _)); eauto.
  - (* getColumn *)
    apply is_matrix_inv in Hty as (l & a & f & es & ps & fa & -> & Hl & Ha).
    intros out h1 H.
    assert (exists i, index = VPrim (PNumber i) /\ ltb i zero || gtb i one = false)
      as (i & -> & Hi).
    { unfold getColumn in H. cbn [is_undefined] in H. apply bind_inv in H as (i & h' & Hc & _).
      apply check_index_inv in Hc. eauto. }
    destruct (getColumn_modes h l a f fa es ps Hl Ha i Hi) as [Hal Hr].
    eapply (agree_vector (getColumn _ _)); eauto.
  - (* setColumn *)
    destruct Hty as [Hm Hv].
    apply is_matrix_inv in Hm as (l & a & f & es & ps & fa & -> & Hl & Ha).
    apply is_vector_inv in Hv as (lc & cx & cy & fc & -> & Hc).
    intros out h1 H.
    assert (exists i, index = VPrim (PNumber i) /\ ltb i zero || gtb i one = false)
      as (i & -> & Hi).
    { unfold setColumn in H. cbn [is_undefined] in H. apply bind_inv in H as (i & h' & Hci & _).
      apply check_index_inv in Hci. eauto. }
    destruct (setColumn_modes h l a f fa es ps Hl Ha lc cx cy fc Hc i Hi) as [Hal Hr].
    eapply (agree_matrix (setColumn _ _ _)); eauto.
  - (* getRow *)
    apply is_matrix_inv in Hty as (l & a & f & es & ps & fa & -> & Hl & Ha).
    intros out h1 H.
    assert (exists i, index = VPrim (PNumber i) /\ ltb i zero || gtb i one = false)
      as (i & -> & Hi).
    { unfold getRow in H. cbn [is_undefined] in H. apply bind_inv in H as (i & h' & Hc & _).
      apply check_index_inv in Hc. eauto. }
    destruct (getRow_modes h l a f fa es ps Hl Ha i Hi) as [Hal Hr].
    eapply (agree_vector (getRow _ _)); eauto.
  - (* setRow *)
    destruct Hty as [Hm Hv].
    apply is_matrix_inv in Hm as (l & a & f & es & ps & fa & -> & Hl & Ha).
    apply is_vector_inv in Hv as (lc & cx & cy & fc & -> & Hc).
    intros out h1 H.
    assert (exists i, index = VPrim (PNumber i) /\ ltb i zero || gtb i one = false)
      as (i & -> & Hi).
    { unfold setRow in H. cbn [is_undefined] in H. apply bind_inv in H as (i & h' & Hci & _).
      apply check_index_inv in Hci. eauto. }
    destruct (setRow_modes h l a f fa es ps Hl Ha lc cx cy fc Hc i Hi) as [Hal Hr].
    eapply (agree_matrix (setRow _ _ _)); eauto.
  - (* multiply *)
    destruct Hty as [Hm Hm'].
    apply is_matrix_inv in Hm as (l & a & f & es & ps & fa & -> & Hl & Ha).
    apply is_matrix_inv in Hm' as (l' & a' & f' & es' & ps' & fa' & -> & Hl' & Ha').
    destruct (multiply_modes h l a l' a' f fa f' fa' es es' ps ps' Hl Ha Hl' Ha') as [Hal Hr].
    eapply (agree_matrix (multiply _ _)); eauto.
  - (* multiplyByVector *)
    destruct Hty as [Hm Hv].
    apply is_matrix_inv in Hm as (l & a & f & es & ps & fa & -> & Hl & Ha).
    apply is_vector_inv in Hv as (lc & cx & cy & fc & -> & Hc).
    destruct (multiplyByVector_modes h l a f fa es ps Hl Ha lc cx cy fc Hc) as [Hal Hr].
    eapply (agree_vector (multiplyByVector _ _)); eauto.
  - (* multiplyByScalar *)
    apply is_matrix_inv in Hty as (l & a & f & es & ps & fa & -> & Hl & Ha).
    intros out h1 H.
    assert (exists s, scalar = VPrim (PNumber s)) as (s & ->).
    { unfold multiplyByScalar in H. cbn [is_undefined] in H.
      destruct scalar as [[|s]|]; try discriminate. eauto. }
    destruct (multiplyByScalar_modes h l a f fa es ps Hl Ha s) as [Hal Hr].
    eapply (agree_matrix (multiplyByScalar _ _)); eauto.
  - (* negate *)
    apply is_matrix_inv in Hty as (l & a & f & es & ps & fa & -> & Hl & Ha).
    destruct (negate_modes h l a f fa es ps Hl Ha) as [Hal Hr].
    eapply (agree_matrix (negate _)); eauto.
  - (* transpose *)
    apply is_matrix_inv in Hty as (l & a & f & es & ps & fa & -> & Hl & Ha).
    destruct (transpose_modes h l a f fa es ps Hl Ha) as [Hal Hr].
    eapply (agree_matrix (transpose _)); eauto.
Qed.

(** C2 (amended) at the aliased call [transpose(M, M)], M = fromComponents(1,2,3,4). *)
Lemma result_mode_agrees_aliased :
  exists h2,
    transpose example_M example_M example_heap = (Ok example_M, h2) /\
    components h2 example_M = Some (num 1, num 3, num 2, num 4).
Proof.
  assert (Hty : well_typed example_heap (Transpose example_M))
    by (eexists; reflexivity).
  assert (Hacc : accepts example_heap (Transpose example_M) example_M)
    by (do 3 eexists; split; reflexivity).
  pose proof (result_mode_agrees example_heap (Transpose example_M) example_M Hty Hacc I) as H.
  unfold modes_agree in H.
  edestruct H as (h2 & vs & Hrun & Ho1 & Ho2); [vm_compute; reflexivity|].
  exists h2. split; [exact Hrun|].
  vm_compute in Ho1. injection Ho1 as <-.
  unfold observe in Ho2. cbn [returns_vector] in Ho2.
  destruct (components h2 example_M) as [[[[c0 c1] c2] c3]|]; [|discriminate].
  now injection Ho2 as -> -> -> ->.
Defined.

(** C2 as stated fails.  With M = fromComponents(1,2,3,4), the call
    [fromRowMajorArray(M.values, M)] reads [values[1]] after it has
    overwritten it: M ends holding (1, 3, 3, 4), while
    [fromRowMajorArray(M.values)] returns a matrix holding (1, 3, 2, 4). *)
Lemma fromRowMajorArray_own_storage :
  exists out h1 h2,
    storage example_heap example_M = Some 2%nat /\
    example_values = VRef 2 /\
    fromRowMajorArray example_values undefined example_heap = (Ok out, h1) /\
    components h1 out = Some (num 1, num 3, num 2, num 4) /\
    fromRowMajorArray example_values example_M example_heap = (Ok example_M, h2) /\
    components h2 example_M = Some (num 1, num 3, num 3, num 4) /\
    well_typed example_heap (FromRowMajorArray example_values) /\
    accepts example_heap (FromRowMajorArray example_values) example_M /\
    ~ modes_agree example_heap (FromRowMajorArray example_values) example_M.
Proof.
  do 3 eexists. do 6 (split; [vm_compute; reflexivity|]).
  split; [exact I|]. split; [do 3 eexists; split; reflexivity|].
  intros H. unfold modes_agree in H.
  edestruct H as (h2 & vs & Hrun & Ho1 & Ho2); [vm_compute; reflexivity|].
  vm_compute in Hrun. injection Hrun as <-.
  vm_compute in Ho1, Ho2. congruence.
Qed.

(** The allocating call returns on every well-typed input whose other
    arguments pass the checks. *)
Lemma allocating_call_returns (h : heap) (c : call) :
  well_typed h c -> valid_scalars h c ->
  exists out h1, invoke c undefined h = (Ok out, h1).
Proof.
  intros Hty Hok.
  destruct c; cbn [invoke well_typed valid_scalars] in *;
    repeat match goal with
    | H : _ /\ _ |- _ => destruct H
    | H : is_matrix _ _ |- _ =>
        apply is_matrix_inv in H as (?l & ?a & ?f & ?es & ?ps & ?fa & -> & ?Hl & ?Ha)
    | H : is_vector _ _ |- _ =>
        apply is_vector_inv in H as (?lc & ?cx & ?cy & ?fc & -> & ?Hc)
    | H : exists x, _ = VPrim (PNumber x) /\ _ |- _ => destruct H as (?i & -> & ?Hi)
    | H : exists x, _ = VPrim (PNumber x) |- _ => destruct H as (?s & ->)
    end.
  - destruct (fromComponents_modes h column0Row0 column1Row0 column0Row1 column1Row1)
      as [(out & h1 & Hrun & _) _]. eauto.
  - destruct Hok as (a & es & -> & He). unfold elements in He.
    destruct (h !! a) as [[[es0 ps|a'|x y] fa]|] eqn:Ha; try discriminate.
    destruct (fromRowMajorArray_modes h a es0 ps fa Ha) as [(out & h1 & Hrun & _) _]. eauto.
  - destruct (clone_modes h l a f fa es ps Hl Ha) as [(out & h1 & Hrun & _) _]. eauto.
  - destruct (getColumn_modes h l a f fa es ps Hl Ha i Hi) as [(out & h1 & Hrun & _) _]. eauto.
  - destruct (setColumn_modes h l a f fa es ps Hl Ha lc cx cy fc Hc i Hi)
      as [(out & h1 & Hrun & _) _]. eauto.
  - destruct (getRow_modes h l a f fa es ps Hl Ha i Hi) as [(out & h1 & Hrun & _) _]. eauto.
  - destruct (setRow_modes h l a f fa es ps Hl Ha lc cx cy fc Hc i Hi)
      as [(out & h1 & Hrun & _) _]. eauto.
  - destruct (multiply_modes h l0 a0 l a f0 fa0 f fa es0 es ps0 ps Hl0 Ha0 Hl Ha)
      as [(out & h1 & Hrun & _) _]. eauto.
  - destruct (multiplyByVector_modes h l a f fa es ps Hl Ha lc cx cy fc Hc)
      as [(out & h1 & Hrun & _) _]. eauto.
  - destruct (multiplyByScalar_modes h l a f fa es ps Hl Ha s) as [(out & h1 & Hrun & _) _]. eauto.
  - destruct (negate_modes h l a f fa es ps Hl Ha) as [(out & h1 & Hrun & _) _]. eauto.
  - destruct (transpose_modes h l a f fa es ps Hl Ha) as [(out & h1 & Hrun & _) _]. eauto.
Qed.

(** ** Arithmetic with one and zero *)

Lemma bounded_canonical m e :
  bounded prec emax m e = true ->
  fexp prec emax (Zpos (digits2_pos m) + e) = e /\ e <= emax - prec.
Proof.
  unfold bounded, canonical_mantissa. intros H.
  apply andb_true_iff in H as [H1 H2].
  apply Z.eqb_eq in H1. apply Z.leb_le in H2. auto.
Qed.

Lemma digits2_pos_shiftl m n :
  Zpos (digits2_pos (Pos.shiftl_nat m n)) = Zpos (digits2_pos m) + Z.of_nat n.
Proof.
  induction n as [|n IH]; cbn [Pos.shiftl_nat nat_rect digits2_pos].
  - lia.
  - change (nat_rect _ m (fun _ => xO) n) with (Pos.shiftl_nat m n).
    rewrite Pos2Z.inj_succ, IH. lia.
Qed.

Lemma iter_pos_nat {A} (f : A -> A) p x :
  SpecFloat.iter_pos f p x = Nat.iter (Pos.to_nat p) f x.
Proof.
  revert x. induction p as [p IH|p IH|]; intros x; cbn [SpecFloat.iter_pos].
  - rewrite !IH, Pos2Nat.inj_xI. cbn [Nat.mul].
    rewrite Nat.add_0_r, Nat.iter_succ_r, Nat.iter_add. reflexivity.
  - rewrite !IH, Pos2Nat.inj_xO. cbn [Nat.mul].
    rewrite Nat.add_0_r, Nat.iter_add. reflexivity.
  - reflexivity.
Qed.

Lemma shr_1_shiftl m n :
  Nat.iter n shr_1 (Build_shr_record (Zpos (Pos.shiftl_nat m n)) false false) =
  Build_shr_record (Zpos m) false false.
Proof.
  induction n as [|n IH]; [reflexivity|].
  rewrite Nat.iter_succ_r. cbn [Pos.shiftl_nat nat_rect shr_1 orb].
  exact IH.
Qed.

(** Multiplying by one is exact. *)
Lemma mul_one_l x : finite x = true -> mul one x = x.
Proof.
  destruct x as [s| |  |s m e]; try discriminate; intros Hb; [reflexivity|].
  cbn [finite] in Hb. destruct (bounded_canonical m e Hb) as [Hc He].
  unfold mul, one, SFmul. cbn [xorb].
  change (4503599627370496 * m)%positive with (Pos.shiftl_nat m 52).
  unfold binary_round_aux at 1. unfold shr_fexp at 1.
  cbn [Zdigits2 shr_record_of_loc].
  rewrite digits2_pos_shiftl.
  replace (Zpos (digits2_pos m) + Z.of_nat 52 + (-52 + e)) with (Zpos (digits2_pos m) + e) by lia.
  rewrite Hc. replace (e - (-52 + e)) with 52 by lia.
  cbn [shr]. rewrite iter_pos_nat.
  change (Pos.to_nat 52) with 52%nat. rewrite shr_1_shiftl.
  cbn [shr_m loc_of_shr_record round_nearest_even].
  replace (-52 + e + 52) with e by lia.
  unfold shr_fexp. cbn [Zdigits2 shr_record_of_loc].
  rewrite Hc, Z.sub_diag. cbn [shr shr_m].
  apply Z.leb_le in He. now rewrite He.
Qed.

Lemma mul_one_r x : finite x = true -> mul x one = x.
Proof.
  intros Hx. rewrite <- (mul_one_l x Hx) at 2.
  destruct x as [s| |  |s m e]; try discriminate; [now destruct s|].
  unfold mul, one, SFmul. now rewrite Pos.mul_comm, xorb_comm, Z.add_comm.
Qed.

Lemma mul_zero_l y : finite y = true -> exists s, mul zero y = S754_zero s.
Proof. destruct y; try discriminate; intros _; cbn; eauto. Qed.

Lemma mul_zero_r y : finite y = true -> exists s, mul y zero = S754_zero s.
Proof. destruct y; try discriminate; intros _; cbn; eauto. Qed.

Lemma eqb_refl x : finite x = true -> eqb x x = true.
Proof.
  destruct x as [s| |  |s m e]; try discriminate; intros _; [reflexivity|].
  unfold eqb, SFeqb, SFcompare. rewrite Z.compare_refl.
  fold (Pos.compare m m). rewrite Pos.compare_refl. now destruct s.
Qed.

Lemma add_zero_r x s : finite x = true -> eqb (add x (S754_zero s)) x = true.
Proof.
  destruct x as [sx| |  |sx m e]; try discriminate; intros Hx.
  - now destruct sx, s.
  - cbn [add SFadd]. now apply eqb_refl.
Qed.

Lemma add_zero_l x s : finite x = true -> eqb (add (S754_zero s) x) x = true.
Proof.
  destruct x as [sx| |  |sx m e]; try discriminate; intros Hx.
  - now destruct sx, s.
  - cbn [add SFadd]. now apply eqb_refl.
Qed.

(** The four sums a product with the identity matrix is made of. *)
Lemma identity_sums x y :
  finite x = true -> finite y = true ->
  eqb (add (mul one x) (mul zero y)) x = true /\
  eqb (add (mul zero y) (mul one x)) x = true /\
  eqb (add (mul x one) (mul y zero)) x = true /\
  eqb (add (mul y zero) (mul x one)) x = true.
Proof.
  intros Hx Hy.
  destruct (mul_zero_l y Hy) as [s ->]. destruct (mul_zero_r y Hy) as [s' ->].
  rewrite mul_one_l, mul_one_r by assumption.
  auto using add_zero_l, add_zero_r.
Qed.

(** ** The matrix product *)

Lemma multiply_components (h : heap) (lhs rhs : value) (l0 l1 l2 l3 r0 r1 r2 r3 : prim) :
  components h lhs = Some (l0, l1, l2, l3) ->
  components h rhs = Some (r0, r1, r2, r3) ->
  exists out h1,
    multiply lhs rhs undefined h = (Ok out, h1) /\
    components h1 out =
      Some (js_add (js_mul l0 r0) (js_mul l1 r2), js_add (js_mul l0 r1) (js_mul l1 r3),
            js_add (js_mul l2 r0) (js_mul l3 r2), js_add (js_mul l2 r1) (js_mul l3 r3)).
Proof.
  intros Hl Hr.
  apply components_inv in Hl as (l & a & f & es & ps & fa & -> & Hl & Ha & Hes).
  apply components_inv in Hr as (l' & a' & f' & es' & ps' & fa' & -> & Hl' & Ha' & Hes').
  unfold four in Hes, Hes'. inversion Hes; inversion Hes'; subst.
  exact (proj1 (multiply_modes h l a l' a' f fa f' fa' es es' ps ps' Hl Ha Hl' Ha')).
Qed.

(** C1.  For all matrices L and R, [multiply(L, R)] returns a matrix with
    the components out[0] = L[0]*R[0] + L[1]*R[2], out[1] = L[0]*R[1] +
    L[1]*R[3], out[2] = L[2]*R[0] + L[3]*R[2], out[3] = L[2]*R[1] +
    L[3]*R[3]; and [multiply(fromComponents(1,2,3,4),
    fromComponents(5,6,7,8))] has the components of
    [fromComponents(19,22,43,50)], to which [equals] finds it equal. *)
Theorem multiply_formula :
  (forall (h : heap) (lhs rhs : value) (l0 l1 l2 l3 r0 r1 r2 r3 : prim),
     components h lhs = Some (l0, l1, l2, l3) ->
     components h rhs = Some (r0, r1, r2, r3) ->
     exists out h1,
       multiply lhs rhs undefined h = (Ok out, h1) /\
       components h1 out =
         Some (js_add (js_mul l0 r0) (js_mul l1 r2), js_add (js_mul l0 r1) (js_mul l1 r3),
               js_add (js_mul l2 r0) (js_mul l3 r2), js_add (js_mul l2 r1) (js_mul l3 r3))) /\
  (exists a h1 b h2 p h3 e h4,
     fromComponents (num 1) (num 2) (num 3) (num 4) undefined loaded_heap = (Ok a, h1) /\
     fromComponents (num 5) (num 6) (num 7) (num 8) undefined h1 = (Ok b, h2) /\
     multiply a b undefined h2 = (Ok p, h3) /\
     fromComponents (num 19) (num 22) (num 43) (num 50) undefined h3 = (Ok e, h4) /\
     components h4 p = components h4 e /\
     components h4 p = Some (num 19, num 22, num 43, num 50) /\
     equals p e h4 = (Ok true, h4)).
Proof.
  split.
  - exact multiply_components.
  - do 8 eexists. repeat (split; [vm_compute; reflexivity|]). vm_compute. reflexivity.
Qed.

(** C1 at M = fromComponents(1,2,3,4): the product of M with itself. *)
Lemma multiply_formula_example :
  exists out h1,
    multiply example_M example_M undefined example_heap = (Ok out, h1) /\
    components h1 out = Some (num 7, num 10, num 15, num 22).
Proof.
  destruct (proj1 multiply_formula example_heap example_M example_M
              (num 1) (num 2) (num 3) (num 4) (num 1) (num 2) (num 3) (num 4))
    as (out & h1 & Hrun & Hc); [reflexivity | reflexivity |].
  exists out, h1. split; [exact Hrun|]. rewrite Hc. vm_compute. reflexivity.
Defined.

(** ** Rows and columns *)

Lemma index_guard_0 : ltb (of_Z 0) zero || gtb (of_Z 0) one = false.
Proof. vm_compute. reflexivity. Qed.
Lemma index_guard_1 : ltb (of_Z 1) zero || gtb (of_Z 1) one = false.
Proof. vm_compute. reflexivity. Qed.

Lemma key_read_column es ps :
  key_read es ps (of_Z 0) = elems_get es 0 /\
  key_read es ps (add (of_Z 0) (of_Z 2)) = elems_get es 2 /\
  key_read es ps (of_Z 1) = elems_get es 1 /\
  key_read es ps (add (of_Z 1) (of_Z 2)) = elems_get es 3.
Proof. repeat split; reflexivity. Qed.

Lemma key_read_row es ps :
  key_read es ps (mul (of_Z 0) (of_Z 2)) = elems_get es 0 /\
  key_read es ps (add (mul (of_Z 0) (of_Z 2)) (of_Z 1)) = elems_get es 1 /\
  key_read es ps (mul (of_Z 1) (of_Z 2)) = elems_get es 2 /\
  key_read es ps (add (mul (of_Z 1) (of_Z 2)) (of_Z 1)) = elems_get es 3.
Proof. repeat split; reflexivity. Qed.

(** C3 (amended).  For every matrix and all r, c in {0, 1}, the entry at row
    r and column c -- position r of [getColumn(c)] and position c of
    [getRow(r)] -- is the backing-storage element [values[r*2 + c]]. *)
Theorem entry_addressing (h : heap) (M : value) (a : loc) (es : list prim) (r c : nat) :
  storage h M = Some a -> elements h a = Some es ->
  (r < 2)%nat -> (c < 2)%nat ->
  exists col h1 xy row h2 xy',
    getColumn M (index_value c) undefined h = (Ok col, h1) /\
    coordinates h1 col = Some xy /\
    position r xy = elems_get es (r * 2 + c) /\
    getRow M (index_value r) undefined h = (Ok row, h2) /\
    coordinates h2 row = Some xy' /\
    position c xy' = elems_get es (r * 2 + c).
Proof.
  intros Hs He Hr Hc.
  apply storage_inv in Hs as (l & f & -> & Hl).
  unfold elements in He.
  destruct (h !! a) as [[[es0 ps|a'|x y] fa]|] eqn:Ha; try discriminate.
  inversion He; subst es0; clear He.
  destruct (key_read_column es ps) as (C0 & C1 & C2 & C3).
  destruct (key_read_row es ps) as (R0 & R1 & R2 & R3).
  assert (Hcol : forall i, ltb i zero || gtb i one = false ->
            exists col h1, getColumn (VRef l) (VPrim (PNumber i)) undefined h = (Ok col, h1) /\
              coordinates h1 col = Some (key_read es ps i, key_read es ps (add i (of_Z 2))))
    by (intros i Hi; exact (proj1 (getColumn_modes h l a f fa es ps Hl Ha i Hi))).
  assert (Hrow : forall i, ltb i zero || gtb i one = false ->
            exists row h2, getRow (VRef l) (VPrim (PNumber i)) undefined h = (Ok row, h2) /\
              coordinates h2 row =
                Some (key_read es ps (mul i (of_Z 2)),
                      key_read es ps (add (mul i (of_Z 2)) (of_Z 1))))
    by (intros i Hi; exact (proj1 (getRow_modes h l a f fa es ps Hl Ha i Hi))).
  assert (Hr' : r = 0%nat \/ r = 1%nat) by lia.
  assert (Hc' : c = 0%nat \/ c = 1%nat) by lia.
  destruct Hr' as [-> | ->], Hc' as [-> | ->].
  - destruct (Hcol _ index_guard_0) as (col & h1 & Hrun & Hxy).
    destruct (Hrow _ index_guard_0) as (row & h2 & Hrun' & Hxy').
    exists col, h1; eexists; exists row, h2; eexists.
    do 2 (split; [eassumption|]). split; [|do 2 (split; [eassumption|])]; cbn [position fst snd].
    + now rewrite C0.
    + now rewrite R0.
  - destruct (Hcol _ index_guard_1) as (col & h1 & Hrun & Hxy).
    destruct (Hrow _ index_guard_0) as (row & h2 & Hrun' & Hxy').
    exists col, h1; eexists; exists row, h2; eexists.
    do 2 (split; [eassumption|]). split; [|do 2 (split; [eassumption|])]; cbn [position fst snd].
    + now rewrite C2.
    + now rewrite R1.
  - destruct (Hcol _ index_guard_0) as (col & h1 & Hrun & Hxy).
    destruct (Hrow _ index_guard_1) as (row & h2 & Hrun' & Hxy').
    exists col, h1; eexists; exists row, h2; eexists.
    do 2 (split; [eassumption|]). split; [|do 2 (split; [eassumption|])]; cbn [position fst snd].
    + now rewrite C1.
    + now rewrite R2.
  - destruct (Hcol _ index_guard_1) as (col & h1 & Hrun & Hxy).
    destruct (Hrow _ index_guard_1) as (row & h2 & Hrun' & Hxy').
    exists col, h1; eexists; exists row, h2; eexists.
    do 2 (split; [eassumption|]). split; [|do 2 (split; [eassumption|])]; cbn [position fst snd].
    + now rewrite C3.
    + now rewrite R3.
Qed.

(** C3 (amended) at M = fromComponents(1,2,3,4), row 0 and column 1. *)
Lemma entry_addressing_example :
  exists col h1 xy row h2 xy',
    getColumn example_M (index_value 1) undefined example_heap = (Ok col, h1) /\
    coordinates h1 col = Some xy /\
    position 0 xy = num 2 /\
    getRow example_M (index_value 0) undefined example_heap = (Ok row, h2) /\
    coordinates h2 row = Some xy' /\
    position 1 xy' = num 2.
Proof.
  destruct (entry_addressing example_heap example_M 2
              [num 1; num 2; num 3; num 4] 0 1)
    as (col & h1 & xy & row & h2 & xy' & H1 & H2 & H3 & H4 & H5 & H6);
    [reflexivity | reflexivity | lia | lia |].
  exists col, h1, xy, row, h2, xy'. repeat (split; [assumption|]). assumption.
Defined.

(** C3 as stated fails.  With M = fromComponents(1,2,3,4), r = 0 and c = 1:
    position 0 of [getColumn(M, 1)] is 2, while [values[c*2 + r]] is
    [values[2]], which is 3. *)
Lemma entry_not_column_times_two :
  exists col h1 xy a es,
    getColumn example_M (index_value 1) undefined example_heap = (Ok col, h1) /\
    coordinates h1 col = Some xy /\
    storage example_heap example_M = Some a /\
    elements example_heap a = Some es /\
    position 0 xy = num 2 /\
    elems_get es (1 * 2 + 0) = num 3 /\
    position 0 xy <> elems_get es (1 * 2 + 0).
Proof.
  do 5 eexists. repeat (split; [vm_compute; reflexivity|]).
  vm_compute. discriminate.
Qed.

(** ** The index guard *)

(** C4, what the code does.  The index 0.5 is neither below 0 nor above 1,
    so the guard of the four accessors lets it through.  With M =
    fromComponents(1,2,3,4) and the vector V = (5, 6): [getColumn(M, 0.5)]
    reads the missing properties "0.5" and "2.5" and returns (undefined,
    undefined); [getRow(M, 0.5)] reads [values[1]] and [values[2]];
    [setColumn(M, 0.5, V)] returns a copy of M with its four components
    unchanged; [setRow(M, 0.5, V)] overwrites [values[1]] and [values[2]].
    None raises the error, and neither does [getColumn(M, NaN)]. *)
Theorem fractional_index_accepted :
  ltb one_half zero = false /\ gtb one_half one = false /\
  to_array_index one_half = None /\
  (exists col h1,
     getColumn example_M (VPrim (PNumber one_half)) undefined example_heap = (Ok col, h1) /\
     coordinates h1 col = Some (PUndefined, PUndefined)) /\
  (exists row h1,
     getRow example_M (VPrim (PNumber one_half)) undefined example_heap = (Ok row, h1) /\
     coordinates h1 row = Some (num 2, num 3)) /\
  (exists out h1,
     setColumn example_M (VPrim (PNumber one_half)) example_V undefined
       (snd example_vector) = (Ok out, h1) /\
     components h1 out = Some (num 1, num 2, num 3, num 4)) /\
  (exists out h1,
     setRow example_M (VPrim (PNumber one_half)) example_V undefined
       (snd example_vector) = (Ok out, h1) /\
     components h1 out = Some (num 1, num 5, num 6, num 4)) /\
  returns (getColumn example_M (VPrim (PNumber NaN)) undefined example_heap) = true.
Proof.
  do 3 (split; [vm_compute; reflexivity|]).
  do 4 (split; [do 2 eexists; split; vm_compute; reflexivity|]).
  vm_compute. reflexivity.
Qed.

(** ** The identity constant *)

(** C5, what the code does.  Once the module is loaded IDENTITY holds
    (1, 0, 0, 1) and is a frozen object, yet
    [fromComponents(5, 6, 7, 8, IDENTITY)] returns normally and leaves
    IDENTITY holding (5, 6, 7, 8): the array in its [values] property was
    not frozen with it. *)
Theorem identity_overwritten :
  exists h1,
    components loaded_heap IDENTITY = Some (num 1, num 0, num 0, num 1) /\
    (exists l a, IDENTITY = VRef l /\ loaded_heap !! l = Some (Cell (OMatrix2 a) true)) /\
    fromComponents (num 5) (num 6) (num 7) (num 8) IDENTITY loaded_heap = (Ok IDENTITY, h1) /\
    components h1 IDENTITY = Some (num 5, num 6, num 7, num 8).
Proof.
  eexists. split; [reflexivity|]. split; [do 2 eexists; split; reflexivity|].
  split; vm_compute; reflexivity.
Qed.

(** ** The row-major factory *)

(** C6 (amended).  [fromRowMajorArray(values)] raises the invalid-argument
    error when [values] is not an array, and accepts every array, whatever
    its length: the matrix it returns holds [values[0]], [values[2]],
    [values[1]], [values[3]], a missing element reading as [undefined]. *)
Theorem fromRowMajorArray_checks_array_only (h : heap) (values : value) :
  (not_an_array h values ->
   fromRowMajorArray values undefined h =
     (Throw (DeveloperError "values must be an array"), h)) /\
  (forall a es, values = VRef a -> elements h a = Some es ->
   exists out h1,
     fromRowMajorArray values undefined h = (Ok out, h1) /\
     components h1 out =
       Some (elems_get es 0, elems_get es 2, elems_get es 1, elems_get es 3)).
Proof.
  split.
  - destruct values as [p|l]; cbn [not_an_array]; [reflexivity|].
    destruct (h !! l) as [[[es ps|a|x y] f]|] eqn:Hl; try easy; intros _;
      unfold fromRowMajorArray, Array_isArray;
      rewrite (run_bind _ _ _ _ _ (run_bind _ _ _ _ _ (run_read_cell _ _ _ Hl)));
      reflexivity.
  - intros a es -> He. unfold elements in He.
    destruct (h !! a) as [[[es0 ps|a'|x y] fa]|] eqn:Ha; try discriminate.
    inversion He; subst es0.
    exact (proj1 (fromRowMajorArray_modes h a es ps fa Ha)).
Qed.

(** C6 (amended) at the number 7 and at the array [[1, 2, 3, 4]]. *)
Lemma fromRowMajorArray_checks_array_only_example :
  fromRowMajorArray (VPrim (num 7)) undefined example_heap =
    (Throw (DeveloperError "values must be an array"), example_heap) /\
  exists out h1,
    fromRowMajorArray example_values undefined example_heap = (Ok out, h1) /\
    components h1 out = Some (num 1, num 3, num 2, num 4).
Proof.
  split.
  - apply (proj1 (fromRowMajorArray_checks_array_only example_heap (VPrim (num 7)))).
    exact I.
  - apply (proj2 (fromRowMajorArray_checks_array_only example_heap example_values)
             2%nat [num 1; num 2; num 3; num 4]); reflexivity.
Defined.

(** C6 as stated fails: the array [[1, 2]], of length 2, is not rejected;
    the call returns a matrix holding (1, undefined, 2, undefined). *)
Lemma fromRowMajorArray_short_array_accepted :
  exists out h1,
    elements (snd example_short) 4 = Some [num 1; num 2] /\
    example_short_array = VRef 4 /\
    fromRowMajorArray example_short_array undefined (snd example_short) = (Ok out, h1) /\
    components h1 out = Some (num 1, PUndefined, num 2, PUndefined).
Proof. do 2 eexists. repeat (split; [vm_compute; reflexivity|]). vm_compute. reflexivity. Qed.

(** ** The identity law *)

Lemma identity_sums_prim p q :
  finite_prim p -> finite_prim q ->
  strict_equals (js_add (js_mul (num 1) p) (js_mul (num 0) q)) p = true /\
  strict_equals (js_add (js_mul (num 0) q) (js_mul (num 1) p)) p = true /\
  strict_equals (js_add (js_mul p (num 1)) (js_mul q (num 0))) p = true /\
  strict_equals (js_add (js_mul q (num 0)) (js_mul p (num 1))) p = true.
Proof.
  intros (x & -> & Hx) (y & -> & Hy). unfold js_add, js_mul. cbn [to_number strict_equals].
  change (of_Z 1) with one. change (of_Z 0) with zero.
  now apply identity_sums.
Qed.

(** C8 (amended).  For every matrix M whose four components are finite
    numbers, in a heap where IDENTITY holds (1, 0, 0, 1), both
    [multiply(IDENTITY, M)] and [multiply(M, IDENTITY)] return a matrix
    whose components are [===] to those of M, one by one. *)
Theorem multiply_identity (h : heap) (M : value) (m0 m1 m2 m3 : prim) :
  components h IDENTITY = Some (num 1, num 0, num 0, num 1) ->
  components h M = Some (m0, m1, m2, m3) ->
  finite_prim m0 -> finite_prim m1 -> finite_prim m2 -> finite_prim m3 ->
  (exists out h1 c,
     multiply IDENTITY M undefined h = (Ok out, h1) /\
     components h1 out = Some c /\
     components_equal c (m0, m1, m2, m3) = true) /\
  (exists out h1 c,
     multiply M IDENTITY undefined h = (Ok out, h1) /\
     components h1 out = Some c /\
     components_equal c (m0, m1, m2, m3) = true).
Proof.
  intros HI HM F0 F1 F2 F3.
  destruct (identity_sums_prim m0 m2 F0 F2) as (A0 & _ & _ & _).
  destruct (identity_sums_prim m1 m3 F1 F3) as (A1 & _ & _ & _).
  destruct (identity_sums_prim m2 m0 F2 F0) as (_ & A2 & _ & _).
  destruct (identity_sums_prim m3 m1 F3 F1) as (_ & A3 & _ & _).
  destruct (identity_sums_prim m0 m1 F0 F1) as (_ & _ & B0 & _).
  destruct (identity_sums_prim m1 m0 F1 F0) as (_ & _ & _ & B1).
  destruct (identity_sums_prim m2 m3 F2 F3) as (_ & _ & B2 & _).
  destruct (identity_sums_prim m3 m2 F3 F2) as (_ & _ & _ & B3).
  split.
  - destruct (multiply_components h IDENTITY M _ _ _ _ _ _ _ _ HI HM) as (out & h1 & Hrun & Hc).
    exists out, h1. eexists. split; [exact Hrun|]. split; [exact Hc|].
    cbn [components_equal]. now rewrite A0, A1, A2, A3.
  - destruct (multiply_components h M IDENTITY _ _ _ _ _ _ _ _ HM HI) as (out & h1 & Hrun & Hc).
    exists out, h1. eexists. split; [exact Hrun|]. split; [exact Hc|].
    cbn [components_equal]. now rewrite B0, B1, B2, B3.
Qed.

(** C8 (amended) at M = fromComponents(1,2,3,4). *)
Lemma multiply_identity_example :
  (exists out h1 c,
     multiply IDENTITY example_M undefined example_heap = (Ok out, h1) /\
     components h1 out = Some c /\
     components_equal c (num 1, num 2, num 3, num 4) = true) /\
  (exists out h1 c,
     multiply example_M IDENTITY undefined example_heap = (Ok out, h1) /\
     components h1 out = Some c /\
     components_equal c (num 1, num 2, num 3, num 4) = true).
Proof.
  apply (multiply_identity example_heap example_M (num 1) (num 2) (num 3) (num 4));
    try reflexivity; eexists; (split; [reflexivity | vm_compute; reflexivity]).
Defined.

(** C8 as stated fails.  With U = fromComponents(0, 0, Infinity, 0), the
    first component of [multiply(IDENTITY, U)] is 1*0 + 0*Infinity, which
    is NaN and not the 0 that U holds there. *)
Lemma multiply_identity_unbounded :
  exists out h1 c,
    components (snd example_unbounded) IDENTITY = Some (num 1, num 0, num 0, num 1) /\
    components (snd example_unbounded) example_U =
      Some (num 0, num 0, PNumber Infinity, num 0) /\
    multiply IDENTITY example_U undefined (snd example_unbounded) = (Ok out, h1) /\
    components h1 out = Some c /\
    c = (PNumber NaN, num 0, PNumber Infinity, num 0) /\
    components_equal c (num 0, num 0, PNumber Infinity, num 0) = false /\
    components h1 out <> components h1 example_U.
Proof.
  do 3 eexists. repeat (split; [vm_compute; reflexivity|]).
  vm_compute. discriminate.
Qed.

(** ** Comparison within an epsilon *)

Lemma abs_above_negative z eps : ltb eps zero = true -> leb (abs z) eps = false.
Proof.
  destruct eps as [s|s| |s m e]; try discriminate.
  - destruct s; [|discriminate]. intros _. now destruct z as [?|[]| |].
  - destruct s; [|discriminate]. intros _. now destruct z as [?|[]| |].
Qed.

(** C10.  [equalsEpsilon] checks that epsilon is a number, then takes the
    reference-identity shortcut, then compares components: for every
    matrix M and every number epsilon, negative ones included,
    [equalsEpsilon(M, M, epsilon)] is true; for two distinct instances
    with identical components and epsilon < 0 it is false; and with an
    epsilon that is not a number it raises the error even for
    [equalsEpsilon(M, M, epsilon)]. *)
Theorem equalsEpsilon_reference_shortcut :
  (forall (h : heap) (M : value) (eps : number),
     is_matrix h M -> equalsEpsilon M M (VPrim (PNumber eps)) h = (Ok true, h)) /\
  (forall (h : heap) (M N : value) (c : prim * prim * prim * prim) (eps : number),
     components h M = Some c -> components h N = Some c ->
     strict_equals_value M N = false -> ltb eps zero = true ->
     equalsEpsilon M N (VPrim (PNumber eps)) h = (Ok false, h)) /\
  (forall (h : heap) (M : value) (eps : value),
     match eps with VPrim (PNumber _) => False | _ => True end ->
     equalsEpsilon M M eps h =
       (Throw (DeveloperError "epsilon is required and must be a number"), h)).
Proof.
  split; [|split].
  - intros h M eps HM. apply is_matrix_inv in HM as (l & a & f & es & ps & fa & -> & _).
    unfold equalsEpsilon. cbn [strict_equals_value]. now rewrite Nat.eqb_refl.
  - intros h M N c eps HM HN Hd Heps.
    apply components_inv in HM as (l & a & f & es & ps & fa & -> & Hl & Ha & _).
    apply components_inv in HN as (l' & a' & f' & es' & ps' & fa' & -> & Hl' & Ha' & _).
    unfold equalsEpsilon. rewrite Hd. cbn [is_undefined orb].
    js_run. unfold Math_abs. now rewrite abs_above_negative.
  - intros h M [[|x]|l] Heps; try easy.
Qed.

(** C10 at M, its clone N and epsilon = -1. *)
Lemma equalsEpsilon_reference_shortcut_example :
  equalsEpsilon example_M example_M (VPrim (num (-1))) (snd example_twin) =
    (Ok true, snd example_twin) /\
  equalsEpsilon example_M example_N (VPrim (num (-1))) (snd example_twin) =
    (Ok false, snd example_twin) /\
  equalsEpsilon example_M example_M undefined (snd example_twin) =
    (Throw (DeveloperError "epsilon is required and must be a number"), snd example_twin).
Proof.
  destruct equalsEpsilon_reference_shortcut as (H1 & H2 & H3).
  split; [|split].
  - apply H1. eexists. reflexivity.
  - apply (H2 _ _ _ (num 1, num 2, num 3, num 4)); reflexivity.
  - apply H3. exact I.
Defined.

(** ** Exact comparison *)

Lemma equals_distinct h l a f es ps fa l' a' f' es' ps' fa' :
  h !! l = Some (Cell (OMatrix2 a) f) -> h !! a = Some (Cell (OArray es ps) fa) ->
  h !! l' = Some (Cell (OMatrix2 a') f') -> h !! a' = Some (Cell (OArray es' ps') fa') ->
  l <> l' ->
  equals (VRef l) (VRef l') h = (Ok (components_equal (four es) (four es')), h).
Proof.
  intros Hl Ha Hl' Ha' Hne. unfold equals. cbn [strict_equals_value is_undefined orb].
  apply Nat.eqb_neq in Hne. rewrite Hne. unfold four, components_equal.
  js_run. destruct (strict_equals (elems_get es 0) (elems_get es' 0)); [|reflexivity].
  cbn [negb andb]. js_run.
  destruct (strict_equals (elems_get es 1) (elems_get es' 1)); [|reflexivity].
  cbn [negb andb]. js_run.
  destruct (strict_equals (elems_get es 2) (elems_get es' 2)); [|reflexivity].
  cbn [negb andb]. js_run. reflexivity.
Qed.

(** C7.  For operands that are each a matrix or absent, [equals(left,
    right)] raises no error and leaves the heap as it was; it returns true
    when the two are identical (both absent included), false when exactly
    one is absent, and otherwise true exactly when the four components
    are pairwise [===]. *)
Theorem equals_total (h : heap) (lhs rhs : value) :
  optional_matrix h lhs -> optional_matrix h rhs ->
  exists b,
    equals lhs rhs h = (Ok b, h) /\
    (strict_equals_value lhs rhs = true -> b = true) /\
    (strict_equals_value lhs rhs = false -> lhs = undefined \/ rhs = undefined -> b = false) /\
    (forall c c', strict_equals_value lhs rhs = false ->
       components h lhs = Some c -> components h rhs = Some c' ->
       b = components_equal c c').
Proof.
  intros Hl Hr. unfold equals.
  destruct (strict_equals_value lhs rhs) eqn:Hsame.
  - exists true. repeat split; congruence.
  - destruct Hl as [-> | [c Hc]].
    { exists false. cbn [is_undefined orb]. repeat split; try congruence.
      intros c c' _ Hc. discriminate. }
    destruct Hr as [-> | [c' Hc']].
    { exists false. destruct lhs as [[|x]|l]; try discriminate; cbn [is_undefined orb];
        repeat split; try congruence; intros ? ? _ _ Hc'; discriminate. }
    pose proof Hc as Hc0. pose proof Hc' as Hc0'.
    apply components_inv in Hc as (l & a & f & es & ps & fa & -> & Hl & Ha & ->).
    apply components_inv in Hc' as (l' & a' & f' & es' & ps' & fa' & -> & Hl' & Ha' & ->).
    assert (l <> l') by (cbn in Hsame; now apply Nat.eqb_neq).
    exists (components_equal (four es) (four es')).
    split.
    + pose proof (equals_distinct _ _ _ _ _ _ _ _ _ _ _ _ _ Hl Ha Hl' Ha' H) as E.
      unfold equals in E. cbn [strict_equals_value] in *. rewrite Hsame in E. exact E.
    + split; [congruence|]. split.
      * intros _ [?|?]; discriminate.
      * intros c c' _ E E'. congruence.
Qed.

(** C7 at [equals(M, M)], [equals(M, undefined)] and [equals(undefined, undefined)]. *)
Lemma equals_total_example :
  equals example_M example_M example_heap = (Ok true, example_heap) /\
  equals example_M undefined example_heap = (Ok false, example_heap) /\
  equals undefined undefined example_heap = (Ok true, example_heap).
Proof.
  assert (HM : optional_matrix example_heap example_M) by (right; eexists; reflexivity).
  assert (HU : optional_matrix example_heap undefined) by (left; reflexivity).
  destruct (equals_total example_heap example_M example_M HM HM) as (b1 & R1 & T1 & _).
  destruct (equals_total example_heap example_M undefined HM HU) as (b2 & R2 & _ & F2 & _).
  destruct (equals_total example_heap undefined undefined HU HU) as (b3 & R3 & T3 & _).
  rewrite R1, R2, R3, (T1 eq_refl), (F2 eq_refl (or_intror eq_refl)), (T3 eq_refl).
  auto.
Defined.

(** ** Strings without a newline *)

Lemma no_newline_append a b :
  no_newline (a ++ b)%string = no_newline a && no_newline b.
Proof. induction a as [|c a IH]; cbn; [reflexivity|]. now rewrite IH, andb_assoc. Qed.

Lemma digit_char_plain d : is_newline (digit_char d) = false.
Proof.
  unfold digit_char. generalize (Z.to_nat d). intros n.
  do 9 (destruct n as [|n]; [reflexivity|]). reflexivity.
Qed.

Lemma decimal_fuel_plain fuel : forall n acc,
  no_newline acc = true -> no_newline (decimal_fuel fuel n acc) = true.
Proof.
  induction fuel as [|fuel IH]; intros n acc Hacc; cbn [decimal_fuel]; [exact Hacc|].
  assert (no_newline (String (digit_char (n mod 10)) acc) = true)
    by (cbn [no_newline]; now rewrite digit_char_plain, Hacc).
  destruct (n / 10 =? 0); auto.
Qed.

Lemma decimal_plain n : no_newline (decimal n) = true.
Proof. now apply decimal_fuel_plain. Qed.

Lemma zeros_plain n : no_newline (zeros n) = true.
Proof. induction n; [reflexivity|]. cbn. exact IHn. Qed.

Lemma substring_plain s : forall i j,
  no_newline s = true -> no_newline (substring i j s) = true.
Proof.
  induction s as [|c s IH]; intros i j Hs.
  - now destruct i, j.
  - cbn in Hs. apply andb_true_iff in Hs as [Hc Hs].
    destruct i as [|i]; [destruct j as [|j]|]; cbn; auto.
    rewrite Hc. now apply IH.
Qed.

Ltac plain :=
  repeat first
    [ rewrite no_newline_append
    | rewrite decimal_plain
    | rewrite zeros_plain
    | rewrite substring_plain by apply decimal_plain
    | reflexivity
    | progress cbn [andb] ].

Lemma format_positive_plain s q : no_newline (format_positive s q) = true.
Proof.
  unfold format_positive.
  repeat match goal with
  | |- context [if ?b then _ else _] => destruct b
  end; plain.
Qed.

Lemma number_to_string_plain x : no_newline (number_to_string x) = true.
Proof.
  destruct x as [s|s| |s m e]; cbn [number_to_string]; try reflexivity.
  - now destruct s.
  - destruct (shortest m e 17 1) as [s10 q]. destruct (strip_zeros 400 s10 q) as [s10' q'].
    rewrite no_newline_append, format_positive_plain. now destruct s.
Qed.

Lemma prim_to_string_plain p : no_newline (prim_to_string p) = true.
Proof. destruct p; [reflexivity|]. apply number_to_string_plain. Qed.

Lemma row_text_plain x y : no_newline (row_text x y) = true.
Proof. unfold row_text. rewrite !no_newline_append, !prim_to_string_plain. reflexivity. Qed.

Lemma string_app_assoc (a b c : string) : ((a ++ b) ++ c = a ++ (b ++ c))%string.
Proof. induction a as [|x a IH]; cbn; [reflexivity|]. now rewrite IH. Qed.

(** ** Lines *)

Lemma split_lines_plain s : no_newline s = true -> split_lines s = [s].
Proof.
  induction s as [|c s IH]; [reflexivity|]. cbn. intros H.
  apply andb_true_iff in H as [Hc Hs]. apply negb_true_iff in Hc.
  now rewrite Hc, IH.
Qed.

Lemma split_lines_two a b :
  no_newline a = true -> no_newline b = true ->
  split_lines (a ++ newline ++ b)%string = [a; b].
Proof.
  intros Ha Hb. induction a as [|c a IH].
  - cbn. now rewrite split_lines_plain.
  - cbn in Ha. apply andb_true_iff in Ha as [Hc Ha]. apply negb_true_iff in Hc.
    cbn [String.append split_lines]. rewrite Hc. cbn [String.append] in IH. now rewrite IH.
Qed.

(** C9.  For every matrix, [toString] returns the text of row 0, one newline,
    and the text of row 1, each row being its two values in parentheses
    separated by a comma and a space; the string has exactly these two
    lines, so no trailing newline; and
    [toString(fromComponents(1,2,3,4))] is "(1, 2)", newline, "(3, 4)". *)
Theorem toString_two_lines :
  (forall (h : heap) (M : value) (v0 v1 v2 v3 : prim),
     components h M = Some (v0, v1, v2, v3) ->
     exists s,
       toString M h = (Ok s, h) /\
       s = (row_text v0 v1 ++ newline ++ row_text v2 v3)%string /\
       split_lines s = [row_text v0 v1; row_text v2 v3]) /\
  toString example_M example_heap = (Ok ("(1, 2)" ++ newline ++ "(3, 4)")%string, example_heap).
Proof.
  split.
  - intros h M v0 v1 v2 v3 Hc.
    apply components_inv in Hc as (l & a & f & es & ps & fa & -> & Hl & Ha & Hes).
    unfold four in Hes. inversion Hes; subst.
    eexists. split; [|split].
    + unfold toString. cbn [is_undefined]. js_run. reflexivity.
    + unfold row_text. now rewrite !string_app_assoc.
    + replace (_ ++ _)%string
        with (row_text (elems_get es 0) (elems_get es 1) ++ newline ++
              row_text (elems_get es 2) (elems_get es 3))%string.
      * apply split_lines_two; apply row_text_plain.
      * unfold row_text. now rewrite !string_app_assoc.
  - vm_compute. reflexivity.
Qed.

(** C9 at IDENTITY. *)
Lemma toString_two_lines_example :
  exists s,
    toString IDENTITY loaded_heap = (Ok s, loaded_heap) /\
    split_lines s = ["(1, 0)"; "(0, 1)"]%string.
Proof.
  destruct (proj1 toString_two_lines loaded_heap IDENTITY (num 1) (num 0) (num 0) (num 1))
    as (s & Hrun & Hs & Hlines); [reflexivity|].
  exists s. split; [exact Hrun|]. rewrite Hlines. vm_compute. reflexivity.
Defined.

(** * Further properties of the operations *)

(** ** More arithmetic *)

Lemma mul_comm x y : mul x y = mul y x.
Proof.
  destruct x as [s| s| |s m e], y as [s'|s'| |s' m' e']; cbn [mul SFmul];
    try reflexivity; try (now rewrite xorb_comm).
  unfold mul, SFmul. now rewrite Pos.mul_comm, xorb_comm, Z.add_comm.
Qed.

Lemma js_mul_comm p q : js_mul p q = js_mul q p.
Proof. unfold js_mul. now rewrite mul_comm. Qed.

Lemma neg_involutive x : neg (neg x) = x.
Proof. destruct x as [s|s| |s m e]; cbn; now rewrite ?negb_involutive. Qed.

(** Multiplying by plus or minus one only sets the sign. *)
Lemma mul_unit_l s0 x :
  valid_binary prec emax x = true ->
  mul (S754_finite s0 4503599627370496 (-52)) x = if s0 then neg x else x.
Proof.
  destruct x as [s|s| |s m e]; intros Hb.
  - now destruct s0, s.
  - now destruct s0, s.
  - now destruct s0.
  - cbn [valid_binary] in Hb. destruct (bounded_canonical m e Hb) as [Hc He].
    unfold mul, SFmul.
    change (4503599627370496 * m)%positive with (Pos.shiftl_nat m 52).
    unfold binary_round_aux at 1. unfold shr_fexp at 1.
    cbn [Zdigits2 shr_record_of_loc].
    rewrite digits2_pos_shiftl.
    replace (Zpos (digits2_pos m) + Z.of_nat 52 + (-52 + e)) with (Zpos (digits2_pos m) + e)
      by lia.
    rewrite Hc. replace (e - (-52 + e)) with 52 by lia.
    cbn [shr]. rewrite iter_pos_nat.
    change (Pos.to_nat 52) with 52%nat. rewrite shr_1_shiftl.
    cbn [shr_m loc_of_shr_record round_nearest_even].
    replace (-52 + e + 52) with e by lia.
    unfold shr_fexp. cbn [Zdigits2 shr_record_of_loc].
    rewrite Hc, Z.sub_diag. cbn [shr shr_m].
    apply Z.leb_le in He. rewrite He. now destruct s0, s.
Qed.

Lemma mul_one_exact x : valid_binary prec emax x = true -> mul x one = x.
Proof. intros H. rewrite mul_comm. exact (mul_unit_l false x H). Qed.

Lemma mul_minus_one x : valid_binary prec emax x = true -> mul x minus_one = neg x.
Proof. intros H. rewrite mul_comm. exact (mul_unit_l true x H). Qed.

Lemma finite_valid x : finite x = true -> valid_binary prec emax x = true.
Proof. now destruct x. Qed.

Lemma sub_self x : finite x = true -> sub x x = S754_zero false.
Proof.
  destruct x as [s|s| |s m e]; try discriminate; intros _.
  - now destruct s.
  - unfold sub, SFsub. rewrite Z.sub_diag. reflexivity.
Qed.

Lemma sub_same x y :
  finite x = true -> finite y = true -> eqb x y = true -> abs (sub x y) = S754_zero false.
Proof.
  intros Hx Hy E.
  destruct x as [s|s| |s m e], y as [s'|s'| |s' m' e']; try discriminate.
  - now destruct s, s'.
  - now destruct s'.
  - now destruct s.
  - assert (x_eq : S754_finite s m e = S754_finite s' m' e').
    { unfold eqb, SFeqb, SFcompare in E.
      destruct s, s'; try discriminate;
        destruct (e ?= e') eqn:Ee; try discriminate;
        apply Z.compare_eq in Ee; subst e';
        destruct (Pos.compare_cont Eq m m') eqn:Em; try discriminate;
        apply Pos.compare_eq in Em; now subst. }
    rewrite <- x_eq. now rewrite sub_self.
Qed.

(** ** What a call touches *)

Lemma insert_fresh (h : heap) a m c :
  <[length h := c]> ((h ++ [a]) ++ [m]) = h ++ [c; m].
Proof.
  rewrite <- app_assoc. cbn [app].
  rewrite insert_app_r_alt by lia. now rewrite Nat.sub_diag.
Qed.

Lemma ok_valid_scalars h c r out h' :
  well_typed h c -> invoke c r h = (Ok out, h') -> valid_scalars h c.
Proof.
  intros Hty H.
  destruct c; cbn [invoke well_typed valid_scalars] in *; try exact I;
    repeat match goal with
    | H : _ /\ _ |- _ => destruct H
    | H : is_matrix _ _ |- _ =>
        apply is_matrix_inv in H as (?l & ?a & ?f & ?es & ?ps & ?fa & -> & ?Hl & ?Ha)
    | H : is_vector _ _ |- _ =>
        apply is_vector_inv in H as (?lc & ?cx & ?cy & ?fc & -> & ?Hc)
    end.
  - unfold fromRowMajorArray in H. apply bind_inv in H as (b & h0 & Hb & H).
    destruct b; [|discriminate].
    apply isArray_true_inv in Hb as [_ (a & es & ps & fa & -> & Ha)].
    exists a, es. split; [reflexivity|]. unfold elements. now rewrite Ha.
  - unfold getColumn in H. cbn [is_undefined] in H. apply bind_inv in H as (i & h0 & Hc & _).
    apply check_index_inv in Hc. eauto.
  - unfold setColumn in H. cbn [is_undefined] in H. apply bind_inv in H as (i & h0 & Hci & _).
    apply check_index_inv in Hci. eauto.
  - unfold getRow in H. cbn [is_undefined] in H. apply bind_inv in H as (i & h0 & Hc & _).
    apply check_index_inv in Hc. eauto.
  - unfold setRow in H. cbn [is_undefined] in H. apply bind_inv in H as (i & h0 & Hci & _).
    apply check_index_inv in Hci. eauto.
  - unfold multiplyByScalar in H. cbn [is_undefined] in H.
    destruct scalar as [[|s]|]; try discriminate. eauto.
Qed.

Ltac open_typed :=
  repeat match goal with
  | H : _ /\ _ |- _ => destruct H
  | H : is_matrix _ _ |- _ =>
      apply is_matrix_inv in H as (?l & ?a & ?f & ?es & ?ps & ?fa & -> & ?Hl & ?Ha)
  | H : is_vector _ _ |- _ =>
      apply is_vector_inv in H as (?lc & ?cx & ?cy & ?fc & -> & ?Hc)
  | H : exists x, _ = VPrim (PNumber x) /\ _ |- _ => destruct H as (?i & -> & ?Hi)
  | H : exists x, _ = VPrim (PNumber x) |- _ => destruct H as (?s & ->)
  end.

Ltac js_grown :=
  do 2 eexists; split;
  [ rewrite ?list_insert_insert_eq, ?insert_fresh, <- ?app_assoc; reflexivity
  | eexists; split; [reflexivity | rewrite ?length_app; lia] ].

Lemma allocating_call_grows (h : heap) (c : call) :
  well_typed h c -> valid_scalars h c ->
  exists out k, invoke c undefined h = (Ok out, h ++ k) /\ fresh h out.
Proof.
  intros Hty Hok.
  destruct c; cbn [invoke well_typed valid_scalars] in *; open_typed.
  - unfold fromComponents, array_literal, alloc. cbn [is_undefined]. js_run. js_grown.
  - destruct Hok as (a & es & -> & He). unfold elements in He.
    destruct (h !! a) as [[[es0 ps|a'|x y] fa]|] eqn:Ha; try discriminate.
    unfold fromRowMajorArray, array_literal, alloc. js_run. cbn [negb is_undefined]. js_run.
    js_grown.
  - unfold clone. cbn [is_undefined]. js_run. js_grown.
  - unfold getColumn, new_Cartesian2, alloc. cbn [is_undefined].
    rewrite (run_bind _ _ _ _ _ (check_index_ok _ _ Hi)). js_run. js_grown.
  - unfold setColumn, get_x, get_y. cbn [is_undefined].
    rewrite (run_bind _ _ _ _ _ (check_index_ok _ _ Hi)).
    rewrite (run_bind _ _ _ _ _ (clone_alloc_run _ _ _ _ _ _ _ Hl Ha)).
    js_run. js_grown.
  - unfold getRow, new_Cartesian2, alloc. cbn [is_undefined].
    rewrite (run_bind _ _ _ _ _ (check_index_ok _ _ Hi)). js_run. js_grown.
  - unfold setRow, get_x, get_y. cbn [is_undefined].
    rewrite (run_bind _ _ _ _ _ (check_index_ok _ _ Hi)).
    rewrite (run_bind _ _ _ _ _ (clone_alloc_run _ _ _ _ _ _ _ Hl Ha)).
    js_run. js_grown.
  - unfold multiply, array_literal, alloc. cbn [is_undefined]. js_run. js_grown.
  - unfold multiplyByVector, get_x, get_y, new_Cartesian2, alloc. cbn [is_undefined].
    js_run. js_grown.
  - unfold multiplyByScalar, array_literal, alloc. cbn [is_undefined]. js_run. js_grown.
  - unfold negate, array_literal, alloc. cbn [is_undefined]. js_run. js_grown.
  - unfold transpose, array_literal, alloc. cbn [is_undefined]. js_run. js_grown.
Qed.

Ltac js_only_target :=
  do 2 eexists; split;
  [ first [eassumption | reflexivity | (cbn; rewrite_target)]
  | rewrite ?list_insert_insert_eq; reflexivity ]
with rewrite_target :=
  match goal with
  | H : ?h !! ?l = Some _ |- context [?h !! ?l] => rewrite H; reflexivity
  end.

Lemma result_call_writes_target (h : heap) (c : call) (result : value) :
  well_typed h c -> valid_scalars h c -> accepts h c result ->
  exists t x, target h c result = Some t /\ invoke c result h = (Ok result, <[t := x]> h).
Proof.
  intros Hty Hok Hacc. unfold accepts, target in *.
  destruct c; cbn [invoke well_typed valid_scalars returns_vector] in *; open_typed;
    try (open_result Hacc); try (open_vector Hacc).
  - unfold fromComponents. cbn [is_undefined]. js_run. js_only_target.
  - destruct Hok as (a & es & -> & He). unfold elements in He.
    destruct (h !! a) as [[[es0 ps|a'|x y] fa]|] eqn:Ha; try discriminate.
    unfold fromRowMajorArray. js_run. cbn [negb is_undefined].
    same_array a ra; js_run; js_only_target.
  - unfold clone. cbn [is_undefined]. same_array a ra; js_run; js_only_target.
  - unfold getColumn. cbn [is_undefined].
    rewrite (run_bind _ _ _ _ _ (check_index_ok _ _ Hi)). js_run. js_only_target.
  - unfold setColumn, get_x, get_y. cbn [is_undefined].
    rewrite (run_bind _ _ _ _ _ (check_index_ok _ _ Hi)).
    rewrite (run_bind _ _ _ _ _ (clone_result_run _ _ _ _ _ _ _ _ _ _ _ _ Hl Ha Hr Hra)).
    js_run. js_only_target.
  - unfold getRow. cbn [is_undefined].
    rewrite (run_bind _ _ _ _ _ (check_index_ok _ _ Hi)). js_run. js_only_target.
  - unfold setRow, get_x, get_y. cbn [is_undefined].
    rewrite (run_bind _ _ _ _ _ (check_index_ok _ _ Hi)).
    rewrite (run_bind _ _ _ _ _ (clone_result_run _ _ _ _ _ _ _ _ _ _ _ _ Hl Ha Hr Hra)).
    js_run. js_only_target.
  - unfold multiply. cbn [is_undefined]. js_run. js_only_target.
  - unfold multiplyByVector, get_x, get_y, set_x, set_y. cbn [is_undefined].
    js_run. js_only_target.
  - unfold multiplyByScalar. cbn [is_undefined]. same_array a ra; js_run; js_only_target.
  - unfold negate. cbn [is_undefined]. same_array a ra; js_run; js_only_target.
  - unfold transpose. cbn [is_undefined]. js_run. js_only_target.
Qed.

Lemma components_grown h k v c :
  components h v = Some c -> components (h ++ k) v = Some c.
Proof.
  intros H. apply components_inv in H as (l & a & f & es & ps & fa & -> & Hl & Ha & ->).
  eapply components_intro; apply lookup_app_l_Some; eassumption.
Qed.

Lemma coordinates_grown h k v xy :
  coordinates h v = Some xy -> coordinates (h ++ k) v = Some xy.
Proof.
  destruct v as [p|l]; cbn; [discriminate|].
  destruct (h !! l) as [c|] eqn:Hl; [|discriminate].
  now rewrite (lookup_app_l_Some _ _ _ _ Hl).
Qed.

Lemma allocating_call_frame (h : heap) (c : call) (out : value) (h1 : heap) :
  well_typed h c ->
  invoke c undefined h = (Ok out, h1) ->
  grown h h1 /\ fresh h out /\
  (forall l x, h !! l = Some x -> h1 !! l = Some x) /\
  (forall v cs, components h v = Some cs -> components h1 v = Some cs) /\
  (forall v xy, coordinates h v = Some xy -> coordinates h1 v = Some xy).
Proof.
  intros Hty Hrun.
  pose proof (ok_valid_scalars _ _ _ _ _ Hty Hrun) as Hok.
  destruct (allocating_call_grows h c Hty Hok) as (out' & k & Hrun' & Hfresh).
  rewrite Hrun' in Hrun. inversion Hrun; subst.
  split; [now exists k|]. split; [exact Hfresh|].
  split; [intros l x; apply lookup_app_l_Some|].
  split; [intros v cs; apply components_grown | intros v xy; apply coordinates_grown].
Qed.

(** X1.  A call without a result argument that returns only adds objects
    to the heap: its result is a new object, and every object that existed
    before -- every matrix, every vector -- is as it was. *)
Theorem allocating_call_preserves (h : heap) (c : call) (out : value) (h1 : heap) :
  well_typed h c ->
  invoke c undefined h = (Ok out, h1) ->
  grown h h1 /\ fresh h out /\
  (forall l x, h !! l = Some x -> h1 !! l = Some x) /\
  (forall v cs, components h v = Some cs -> components h1 v = Some cs) /\
  (forall v xy, coordinates h v = Some xy -> coordinates h1 v = Some xy).
Proof. apply allocating_call_frame. Qed.

(** X1 on an example. *)
Lemma allocating_call_preserves_example :
  components (snd (invoke (Transpose example_M) undefined example_heap)) example_M =
    Some (num 1, num 2, num 3, num 4).
Proof.
  eapply (allocating_call_preserves example_heap (Transpose example_M) (VRef 5)).
  - eexists. reflexivity.
  - vm_compute. reflexivity.
  - reflexivity.
Defined.

(** X2.  A call that is given a result creates no object and changes no
    object but the one it writes the result to. *)
Theorem result_call_footprint (h : heap) (c : call) (result out : value) (h2 : heap) :
  well_typed h c -> accepts h c result ->
  invoke c result h = (Ok out, h2) ->
  out = result /\ length h2 = length h /\
  exists t, target h c result = Some t /\ forall l, l <> t -> h2 !! l = h !! l.
Proof.
  intros Hty Hacc Hrun.
  pose proof (ok_valid_scalars _ _ _ _ _ Hty Hrun) as Hok.
  destruct (result_call_writes_target h c result Hty Hok Hacc) as (t & x & Ht & Hrun').
  rewrite Hrun' in Hrun. inversion Hrun; subst.
  split; [reflexivity|]. split; [apply length_insert|].
  exists t. split; [exact Ht|]. intros l Hne. now apply list_lookup_insert_ne.
Qed.

(** X2 on an example. *)
Lemma result_call_footprint_example :
  length (snd (invoke (Transpose example_M) example_M example_heap)) = length example_heap.
Proof.
  eapply (result_call_footprint example_heap (Transpose example_M) example_M example_M).
  - eexists. reflexivity.
  - vm_compute. eauto.
  - vm_compute. reflexivity.
Defined.

(** ** One allocating call, with what it leaves behind *)

Lemma keeps_of_run h c out h1 :
  well_typed h c -> invoke c undefined h = (Ok out, h1) -> keeps h h1.
Proof.
  intros Hty Hrun.
  destruct (allocating_call_frame h c out h1 Hty Hrun) as (_ & _ & _ & Hc & Hv).
  now split.
Qed.

Lemma is_matrix_of h v cs : components h v = Some cs -> is_matrix h v.
Proof. intros H. now exists cs. Qed.

Lemma is_vector_of h v xy : coordinates h v = Some xy -> is_vector h v.
Proof. intros H. now exists xy. Qed.

Lemma transpose_step h M c0 c1 c2 c3 :
  components h M = Some (c0, c1, c2, c3) ->
  exists out h1,
    transpose M undefined h = (Ok out, h1) /\
    components h1 out = Some (c0, c2, c1, c3) /\ keeps h h1.
Proof.
  intros Hc. pose proof (is_matrix_of _ _ _ Hc) as Hm.
  apply components_inv in Hc as (l & a & f & es & ps & fa & -> & Hl & Ha & Hes).
  unfold four in Hes. inversion Hes; subst.
  destruct (proj1 (transpose_modes h l a f fa es ps Hl Ha)) as (out & h1 & Hrun & Hout).
  exists out, h1. repeat split; try assumption;
    apply (keeps_of_run h (Transpose (VRef l)) out h1 Hm Hrun).
Qed.

Lemma negate_step h M c0 c1 c2 c3 :
  components h M = Some (c0, c1, c2, c3) ->
  exists out h1,
    negate M undefined h = (Ok out, h1) /\
    components h1 out = Some (js_neg c0, js_neg c1, js_neg c2, js_neg c3) /\ keeps h h1.
Proof.
  intros Hc. pose proof (is_matrix_of _ _ _ Hc) as Hm.
  apply components_inv in Hc as (l & a & f & es & ps & fa & -> & Hl & Ha & Hes).
  unfold four in Hes. inversion Hes; subst.
  destruct (proj1 (negate_modes h l a f fa es ps Hl Ha)) as (out & h1 & Hrun & Hout).
  exists out, h1. repeat split; try assumption;
    apply (keeps_of_run h (Negate (VRef l)) out h1 Hm Hrun).
Qed.

Lemma multiply_step h A B a0 a1 a2 a3 b0 b1 b2 b3 :
  components h A = Some (a0, a1, a2, a3) ->
  components h B = Some (b0, b1, b2, b3) ->
  exists out h1,
    multiply A B undefined h = (Ok out, h1) /\
    components h1 out =
      Some (js_add (js_mul a0 b0) (js_mul a1 b2), js_add (js_mul a0 b1) (js_mul a1 b3),
            js_add (js_mul a2 b0) (js_mul a3 b2), js_add (js_mul a2 b1) (js_mul a3 b3)) /\
    keeps h h1.
Proof.
  intros HA HB.
  destruct (multiply_components h A B _ _ _ _ _ _ _ _ HA HB) as (out & h1 & Hrun & Hout).
  exists out, h1. repeat split; try assumption;
    apply (keeps_of_run h (Multiply A B) out h1
             (conj (is_matrix_of _ _ _ HA) (is_matrix_of _ _ _ HB)) Hrun).
Qed.

(** X3.  [transpose(transpose(M))] holds the components of M, whatever they
    are, and M itself is unchanged. *)
Theorem transpose_involution (h : heap) (M : value) (c : prim * prim * prim * prim) :
  components h M = Some c ->
  exists T h1 TT h2,
    transpose M undefined h = (Ok T, h1) /\
    transpose T undefined h1 = (Ok TT, h2) /\
    components h2 TT = Some c /\ components h2 M = Some c.
Proof.
  destruct c as [[[c0 c1] c2] c3]. intros Hc.
  destruct (transpose_step h M _ _ _ _ Hc) as (T & h1 & R1 & C1 & K1).
  destruct (transpose_step h1 T _ _ _ _ C1) as (TT & h2 & R2 & C2 & K2).
  exists T, h1, TT, h2. repeat split; try assumption.
  apply K2, K1, Hc.
Qed.

(** X3 on an example. *)
Lemma transpose_involution_example :
  exists T h1 TT h2,
    transpose example_M undefined example_heap = (Ok T, h1) /\
    transpose T undefined h1 = (Ok TT, h2) /\
    components h2 TT = Some (num 1, num 2, num 3, num 4) /\
    components h2 example_M = Some (num 1, num 2, num 3, num 4).
Proof.
  apply (transpose_involution example_heap example_M (num 1, num 2, num 3, num 4)).
  reflexivity.
Defined.

(** X4.  [negate(negate(M))] holds exactly the components of M when these
    are numbers. *)
Theorem negate_involution (h : heap) (M : value) (c : prim * prim * prim * prim) :
  components h M = Some c -> each is_number c ->
  exists N h1 NN h2,
    negate M undefined h = (Ok N, h1) /\
    negate N undefined h1 = (Ok NN, h2) /\
    components h2 NN = Some c.
Proof.
  destruct c as [[[c0 c1] c2] c3]. intros Hc ([x0 ->] & [x1 ->] & [x2 ->] & [x3 ->]).
  destruct (negate_step h M _ _ _ _ Hc) as (N & h1 & R1 & C1 & K1).
  destruct (negate_step h1 N _ _ _ _ C1) as (NN & h2 & R2 & C2 & K2).
  exists N, h1, NN, h2. repeat split; try assumption.
  rewrite C2. unfold js_neg. cbn [to_number]. now rewrite !neg_involutive.
Qed.

(** X4 on an example. *)
Lemma negate_involution_example :
  exists N h1 NN h2,
    negate example_M undefined example_heap = (Ok N, h1) /\
    negate N undefined h1 = (Ok NN, h2) /\
    components h2 NN = Some (num 1, num 2, num 3, num 4).
Proof.
  apply (negate_involution example_heap example_M (num 1, num 2, num 3, num 4)).
  - reflexivity.
  - repeat split; eexists; reflexivity.
Defined.

(** X5.  [transpose(multiply(A, B))] and [multiply(transpose(B), transpose(A))]
    hold the same components. *)
Theorem transpose_of_product (h : heap) (A B : value) (a b : prim * prim * prim * prim) :
  components h A = Some a -> components h B = Some b ->
  exists P h1 PT h2 BT h3 AT h4 Q h5,
    multiply A B undefined h = (Ok P, h1) /\
    transpose P undefined h1 = (Ok PT, h2) /\
    transpose B undefined h2 = (Ok BT, h3) /\
    transpose A undefined h3 = (Ok AT, h4) /\
    multiply BT AT undefined h4 = (Ok Q, h5) /\
    components h5 Q = components h5 PT /\ is_Some (components h5 Q).
Proof.
  destruct a as [[[a0 a1] a2] a3], b as [[[b0 b1] b2] b3]. intros HA HB.
  destruct (multiply_step h A B _ _ _ _ _ _ _ _ HA HB) as (P & h1 & R1 & C1 & K1).
  destruct (transpose_step h1 P _ _ _ _ C1) as (PT & h2 & R2 & C2 & K2).
  destruct (transpose_step h2 B _ _ _ _ (proj1 K2 _ _ (proj1 K1 _ _ HB)))
    as (BT & h3 & R3 & C3 & K3).
  destruct (transpose_step h3 A _ _ _ _ (proj1 K3 _ _ (proj1 K2 _ _ (proj1 K1 _ _ HA))))
    as (AT & h4 & R4 & C4 & K4).
  destruct (multiply_step h4 BT AT _ _ _ _ _ _ _ _ (proj1 K4 _ _ C3) C4)
    as (Q & h5 & R5 & C5 & K5).
  exists P, h1, PT, h2, BT, h3, AT, h4, Q, h5. repeat (split; [assumption|]).
  rewrite C5, (proj1 K5 _ _ (proj1 K4 _ _ (proj1 K3 _ _ C2))).
  split; [|eexists; reflexivity].
  now rewrite (js_mul_comm b0 a0), (js_mul_comm b2 a1), (js_mul_comm b0 a2),
    (js_mul_comm b2 a3), (js_mul_comm b1 a0), (js_mul_comm b3 a1), (js_mul_comm b1 a2),
    (js_mul_comm b3 a3).
Qed.

(** X5 on an example. *)
Lemma transpose_of_product_example :
  exists P h1 PT h2 BT h3 AT h4 Q h5,
    multiply example_M example_N undefined (snd example_twin) = (Ok P, h1) /\
    transpose P undefined h1 = (Ok PT, h2) /\
    transpose example_N undefined h2 = (Ok BT, h3) /\
    transpose example_M undefined h3 = (Ok AT, h4) /\
    multiply BT AT undefined h4 = (Ok Q, h5) /\
    components h5 Q = components h5 PT /\ is_Some (components h5 Q).
Proof.
  apply (transpose_of_product (snd example_twin) example_M example_N
           (num 1, num 2, num 3, num 4) (num 1, num 2, num 3, num 4));
    reflexivity.
Defined.

(** ** Argument checks *)

Lemma run_bind_throw {A B} (c : M A) (k : A -> M B) h e h' :
  c h = (Throw e, h') -> bind c k h = (Throw e, h').
Proof. intros H. unfold bind. now rewrite H. Qed.

Lemma check_index_rejects index h :
  accepted_index index = false ->
  check_index index h =
    (Throw (DeveloperError "index is required and must be 0 or 1."), h).
Proof.
  unfold accepted_index, check_index. destruct index as [[|i]|l]; try reflexivity.
  intros H. apply negb_false_iff in H. now rewrite H.
Qed.

(** X6.  A call whose arguments fail the checks throws before it reads or
    writes anything. *)
Theorem rejected_call_throws (c : call) (result : value) (h : heap) :
  rejected c = true ->
  exists message, invoke c result h = (Throw (DeveloperError message), h).
Proof.
  destruct c; cbn [rejected invoke]; intros H; try discriminate.
  - unfold clone. rewrite H. eauto.
  - unfold getColumn. destruct (is_undefined matrix); [eauto|].
    cbn [orb] in H. apply negb_true_iff in H.
    rewrite (run_bind_throw _ _ _ _ _ (check_index_rejects _ _ H)). eauto.
  - unfold setColumn. destruct (is_undefined matrix); [eauto|].
    destruct (is_undefined cartesian); [eauto|].
    cbn [orb] in H. apply negb_true_iff in H.
    rewrite (run_bind_throw _ _ _ _ _ (check_index_rejects _ _ H)). eauto.
  - unfold getRow. destruct (is_undefined matrix); [eauto|].
    cbn [orb] in H. apply negb_true_iff in H.
    rewrite (run_bind_throw _ _ _ _ _ (check_index_rejects _ _ H)). eauto.
  - unfold setRow. destruct (is_undefined matrix); [eauto|].
    destruct (is_undefined cartesian); [eauto|].
    cbn [orb] in H. apply negb_true_iff in H.
    rewrite (run_bind_throw _ _ _ _ _ (check_index_rejects _ _ H)). eauto.
  - unfold multiply. destruct (is_undefined left); [eauto|].
    destruct (is_undefined right); [eauto|discriminate].
  - unfold multiplyByVector. destruct (is_undefined matrix); [eauto|].
    destruct (is_undefined cartesian); [eauto|discriminate].
  - unfold multiplyByScalar. destruct (is_undefined matrix); [eauto|].
    destruct scalar as [[|s]|l]; try discriminate; eauto.
  - unfold negate. rewrite H. eauto.
  - unfold transpose. rewrite H. eauto.
Qed.

(** X6 on an example. *)
Lemma rejected_call_throws_example :
  exists message,
    invoke (GetColumn example_M (VPrim (num 2))) example_M example_heap =
      (Throw (DeveloperError message), example_heap).
Proof.
  apply (rejected_call_throws (GetColumn example_M (VPrim (num 2))) example_M example_heap).
  vm_compute. reflexivity.
Defined.

(** ** Copies and shared arrays *)

(** X7.  [clone(M)] returns a new object with an array of its own, holding
    the components of M: overwriting the clone leaves M as it was. *)
Theorem clone_is_independent (h : heap) (M : value) (c : prim * prim * prim * prim)
    (p q r s : prim) :
  components h M = Some c ->
  exists N h1 h2,
    clone M undefined h = (Ok N, h1) /\ fresh h N /\
    components h1 N = Some c /\ components h1 M = Some c /\
    storage h1 N <> storage h1 M /\
    fromComponents p q r s N h1 = (Ok N, h2) /\
    components h2 N = Some (p, q, r, s) /\ components h2 M = Some c.
Proof.
  intros Hc.
  apply components_inv in Hc as (l & a & f & es & ps & fa & -> & Hl & Ha & ->).
  note_bounds. do 3 eexists.
  split; [apply (clone_alloc_run h l a f es ps fa Hl Ha)|].
  split; [eexists; split; [reflexivity | rewrite length_app; lia]|].
  split; [apply components_fresh|].
  split; [eapply components_intro; heap_lookup|].
  split.
  { cbn [storage]. rewrite (list_lookup_middle (h ++ [_]) [] _ _ eq_refl).
    rewrite !lookup_app_l by heap_bound. rewrite Hl. intros E. inversion E. lia. }
  split; [unfold fromComponents; cbn [is_undefined]; js_run; reflexivity|].
  rewrite !list_insert_insert_eq. split.
  - erewrite components_written by heap_lookup.
    unfold four. rewrite !elems_get_set. reflexivity.
  - eapply components_intro; heap_lookup.
Qed.

(** X7 on an example. *)
Lemma clone_is_independent_example :
  exists N h1 h2,
    clone example_M undefined example_heap = (Ok N, h1) /\ fresh example_heap N /\
    components h1 N = Some (num 1, num 2, num 3, num 4) /\
    components h1 example_M = Some (num 1, num 2, num 3, num 4) /\
    storage h1 N <> storage h1 example_M /\
    fromComponents (num 5) (num 6) (num 7) (num 8) N h1 = (Ok N, h2) /\
    components h2 N = Some (num 5, num 6, num 7, num 8) /\
    components h2 example_M = Some (num 1, num 2, num 3, num 4).
Proof.
  apply (clone_is_independent example_heap example_M (num 1, num 2, num 3, num 4)).
  reflexivity.
Defined.

(** X8.  The constructor: without an argument it builds the zero matrix;
    on a value that is not an array it throws a DeveloperError and leaves
    the heap as it was; on an array it builds a matrix stored in that very
    array, whatever its length. *)
Theorem constructor_cases (h : heap) (values : value) :
  (values = undefined ->
   exists out h1,
     new_Matrix2 values h = (Ok out, h1) /\ fresh h out /\ grown h h1 /\
     components h1 out = Some (num 0, num 0, num 0, num 0)) /\
  (values <> undefined -> not_an_array h values ->
   new_Matrix2 values h = (Throw (DeveloperError "values must be an array"), h)) /\
  (forall a es, values = VRef a -> elements h a = Some es ->
   exists out h1,
     new_Matrix2 values h = (Ok out, h1) /\ fresh h out /\ grown h h1 /\
     storage h1 out = Some a /\ components h1 out = Some (four es)).
Proof.
  split; [|split].
  - intros ->. do 2 eexists.
    split; [reflexivity|]. split; [eexists; split; [reflexivity | rewrite length_app; lia]|].
    split; [eexists; symmetry; apply app_assoc|]. apply components_fresh.
  - intros Hdef Hna. destruct values as [[|x]|l]; [congruence|reflexivity|].
    cbn [not_an_array] in Hna.
    destruct (h !! l) as [[[es ps|a|x y] f]|] eqn:Hl; try easy;
      unfold new_Matrix2, Array_isArray; cbn [is_undefined];
      rewrite (run_bind _ _ _ _ _ (run_bind _ _ _ _ _ (run_read_cell _ _ _ Hl)));
      reflexivity.
  - intros a es -> He. unfold elements in He.
    destruct (h !! a) as [[[es0 ps|a'|x y] fa]|] eqn:Ha; try discriminate.
    inversion He; subst es0. note_bounds. do 2 eexists.
    split; [apply (run_new_Matrix2 h a es ps fa Ha)|].
    split; [eexists; split; [reflexivity | lia]|].
    split; [eexists; reflexivity|].
    split.
    + cbn [storage]. now rewrite (list_lookup_middle h [] _ _ eq_refl).
    + eapply components_intro; heap_lookup.
Qed.

(** X8 on an example. *)
Lemma constructor_cases_example :
  new_Matrix2 (VPrim (num 7)) example_heap =
    (Throw (DeveloperError "values must be an array"), example_heap).
Proof.
  apply (constructor_cases example_heap (VPrim (num 7))).
  - discriminate.
  - vm_compute. exact I.
Defined.

(** X9.  Two matrices constructed on one array are distinct objects that
    share their storage: writing the components of one changes the other. *)
Theorem constructed_on_one_array (h : heap) (a : loc) (es : list prim)
    (ps : list (string * prim)) (p q r s : prim) :
  h !! a = Some (Cell (OArray es ps) false) ->
  exists m1 h1 m2 h2 h3,
    new_Matrix2 (VRef a) h = (Ok m1, h1) /\
    new_Matrix2 (VRef a) h1 = (Ok m2, h2) /\
    m1 <> m2 /\
    components h2 m1 = Some (four es) /\ components h2 m2 = Some (four es) /\
    fromComponents p q r s m1 h2 = (Ok m1, h3) /\
    components h3 m1 = Some (p, q, r, s) /\ components h3 m2 = Some (p, q, r, s).
Proof.
  intros Ha. note_bounds.
  assert (Ha1 : (h ++ [Cell (OMatrix2 a) false]) !! a = Some (Cell (OArray es ps) false))
    by heap_lookup.
  do 5 eexists.
  split; [apply (run_new_Matrix2 h a es ps false Ha)|].
  split; [apply (run_new_Matrix2 _ a es ps false Ha1)|].
  split; [intros E; inversion E as [E']; rewrite length_app in E'; cbn in E'; lia|].
  split; [eapply components_intro; heap_lookup|].
  split; [eapply components_intro; heap_lookup|].
  split; [unfold fromComponents; cbn [is_undefined]; js_run; reflexivity|].
  rewrite !list_insert_insert_eq.
  split; (erewrite components_written by heap_lookup;
          unfold four; rewrite !elems_get_set; reflexivity).
Qed.

(** X9 on an example. *)
Lemma constructed_on_one_array_example :
  exists m1 h1 m2 h2 h3,
    new_Matrix2 (VRef 4) (snd example_short) = (Ok m1, h1) /\
    new_Matrix2 (VRef 4) h1 = (Ok m2, h2) /\
    m1 <> m2 /\
    components h2 m1 = Some (four [num 1; num 2]) /\
    components h2 m2 = Some (four [num 1; num 2]) /\
    fromComponents (num 5) (num 6) (num 7) (num 8) m1 h2 = (Ok m1, h3) /\
    components h3 m1 = Some (num 5, num 6, num 7, num 8) /\
    components h3 m2 = Some (num 5, num 6, num 7, num 8).
Proof.
  apply (constructed_on_one_array (snd example_short) 4 [num 1; num 2] []).
  reflexivity.
Defined.

(** ** Scaling *)

Lemma multiplyByScalar_step h M c0 c1 c2 c3 s :
  components h M = Some (c0, c1, c2, c3) ->
  exists out h1,
    multiplyByScalar M (VPrim (PNumber s)) undefined h = (Ok out, h1) /\
    components h1 out =
      Some (js_mul c0 (PNumber s), js_mul c1 (PNumber s),
            js_mul c2 (PNumber s), js_mul c3 (PNumber s)) /\
    keeps h h1.
Proof.
  intros Hc. pose proof (is_matrix_of _ _ _ Hc) as Hm.
  apply components_inv in Hc as (l & a & f & es & ps & fa & -> & Hl & Ha & Hes).
  unfold four in Hes. inversion Hes; subst.
  destruct (proj1 (multiplyByScalar_modes h l a f fa es ps Hl Ha s))
    as (out & h1 & Hrun & Hout).
  exists out, h1. repeat split; try assumption;
    apply (keeps_of_run h (MultiplyByScalar (VRef l) (VPrim (PNumber s))) out h1 Hm Hrun).
Qed.

Lemma js_mul_one p : canonical p -> js_mul p (PNumber one) = p.
Proof. intros (x & -> & Hx). unfold js_mul. cbn [to_number]. now rewrite mul_one_exact. Qed.

Lemma js_mul_minus_one p : canonical p -> js_mul p (PNumber minus_one) = js_neg p.
Proof. intros (x & -> & Hx). unfold js_mul, js_neg. cbn [to_number]. now rewrite mul_minus_one. Qed.

(** X10.  [multiplyByScalar(M, 1)] holds the components of M unchanged. *)
Theorem multiplyByScalar_one (h : heap) (M : value) (c : prim * prim * prim * prim) :
  components h M = Some c -> each canonical c ->
  exists out h1,
    multiplyByScalar M (VPrim (PNumber one)) undefined h = (Ok out, h1) /\
    components h1 out = Some c.
Proof.
  destruct c as [[[c0 c1] c2] c3]. intros Hc (V0 & V1 & V2 & V3).
  destruct (multiplyByScalar_step h M _ _ _ _ one Hc) as (out & h1 & Hrun & Hout & _).
  exists out, h1. split; [exact Hrun|].
  now rewrite Hout, !js_mul_one.
Qed.

(** X10 on an example. *)
Lemma multiplyByScalar_one_example :
  exists out h1,
    multiplyByScalar example_M (VPrim (PNumber one)) undefined example_heap = (Ok out, h1) /\
    components h1 out = Some (num 1, num 2, num 3, num 4).
Proof.
  apply (multiplyByScalar_one example_heap example_M (num 1, num 2, num 3, num 4)).
  - reflexivity.
  - repeat split; eexists; split; reflexivity.
Defined.

(** X11.  [multiplyByScalar(M, -1)] and [negate(M)] hold the same components. *)
Theorem multiplyByScalar_minus_one (h : heap) (M : value) (c : prim * prim * prim * prim) :
  components h M = Some c -> each canonical c ->
  exists S h1 N h2,
    multiplyByScalar M (VPrim (PNumber minus_one)) undefined h = (Ok S, h1) /\
    negate M undefined h1 = (Ok N, h2) /\
    components h2 S = components h2 N /\ is_Some (components h2 N).
Proof.
  destruct c as [[[c0 c1] c2] c3]. intros Hc (V0 & V1 & V2 & V3).
  destruct (multiplyByScalar_step h M _ _ _ _ minus_one Hc) as (S & h1 & R1 & C1 & K1).
  destruct (negate_step h1 M _ _ _ _ (proj1 K1 _ _ Hc)) as (N & h2 & R2 & C2 & K2).
  exists S, h1, N, h2. repeat (split; [assumption|]).
  rewrite C2, (proj1 K2 _ _ C1), !js_mul_minus_one by assumption.
  split; [reflexivity | eexists; reflexivity].
Qed.

(** X11 on an example. *)
Lemma multiplyByScalar_minus_one_example :
  exists S h1 N h2,
    multiplyByScalar example_M (VPrim (PNumber minus_one)) undefined example_heap =
      (Ok S, h1) /\
    negate example_M undefined h1 = (Ok N, h2) /\
    components h2 S = components h2 N /\ is_Some (components h2 N).
Proof.
  apply (multiplyByScalar_minus_one example_heap example_M (num 1, num 2, num 3, num 4)).
  - reflexivity.
  - repeat split; eexists; split; reflexivity.
Defined.

(** ** The identity matrix and vectors *)

(** X12.  [multiplyByVector(IDENTITY, V)] has the coordinates of V (up to
    [===]) when these are finite. *)
Theorem multiplyByVector_identity (h : heap) (V : value) (x y : prim) :
  components h IDENTITY = Some (num 1, num 0, num 0, num 1) ->
  coordinates h V = Some (x, y) -> finite_prim x -> finite_prim y ->
  exists out h1 xy,
    multiplyByVector IDENTITY V undefined h = (Ok out, h1) /\
    coordinates h1 out = Some xy /\
    coordinates_equal xy (x, y) = true.
Proof.
  intros HI HV Fx Fy.
  apply components_inv in HI as (l & a & f & es & ps & fa & EI & Hl & Ha & Hes).
  pose proof (is_vector_of _ _ _ HV) as Hv.
  apply is_vector_inv in Hv as (lc & cx & cy & fc & -> & Hc).
  cbn in HV. rewrite Hc in HV. inversion HV; subst cx cy.
  unfold four in Hes. inversion Hes as [[E0 E1 E2 E3]].
  rewrite EI.
  destruct (proj1 (multiplyByVector_modes h l a f fa es ps Hl Ha lc x y fc Hc))
    as (out & h1 & Hrun & Hout).
  exists out, h1. eexists. split; [exact Hrun|]. split; [exact Hout|].
  rewrite <- E0, <- E1, <- E2, <- E3.
  destruct (identity_sums_prim x y Fx Fy) as (A & _).
  destruct (identity_sums_prim y x Fy Fx) as (_ & B & _).
  unfold coordinates_equal. cbn [fst snd].
  change (strict_equals (js_add (js_mul (num 1) x) (js_mul (num 0) y)) x &&
          strict_equals (js_add (js_mul (num 0) x) (js_mul (num 1) y)) y = true).
  now rewrite A, B.
Qed.

(** X12 on an example. *)
Lemma multiplyByVector_identity_example :
  exists out h1 xy,
    multiplyByVector IDENTITY example_V undefined (snd example_vector) = (Ok out, h1) /\
    coordinates h1 out = Some xy /\
    coordinates_equal xy (num 5, num 6) = true.
Proof.
  apply (multiplyByVector_identity (snd example_vector) example_V (num 5) (num 6)).
  - reflexivity.
  - reflexivity.
  - eexists; split; reflexivity.
  - eexists; split; reflexivity.
Defined.

(** ** Rows and columns, one call at a time *)

Lemma getColumn_step h M c i :
  components h M = Some c -> (i < 2)%nat ->
  exists out h1,
    getColumn M (index_value i) undefined h = (Ok out, h1) /\
    coordinates h1 out = Some (column i c) /\ keeps h h1.
Proof.
  intros Hc Hi. pose proof (is_matrix_of _ _ _ Hc) as Hm.
  apply components_inv in Hc as (l & a & f & es & ps & fa & -> & Hl & Ha & ->).
  destruct (key_read_column es ps) as (C0 & C1 & C2 & C3).
  assert (Hi' : i = 0%nat \/ i = 1%nat) by lia. destruct Hi' as [-> | ->].
  - destruct (proj1 (getColumn_modes h l a f fa es ps Hl Ha _ index_guard_0))
      as (out & h1 & Hrun & Hout).
    exists out, h1. split; [exact Hrun|]. split.
    + rewrite Hout, C0, C1. reflexivity.
    + exact (keeps_of_run h (GetColumn (VRef l) (index_value 0)) out h1 Hm Hrun).
  - destruct (proj1 (getColumn_modes h l a f fa es ps Hl Ha _ index_guard_1))
      as (out & h1 & Hrun & Hout).
    exists out, h1. split; [exact Hrun|]. split.
    + rewrite Hout, C2, C3. reflexivity.
    + exact (keeps_of_run h (GetColumn (VRef l) (index_value 1)) out h1 Hm Hrun).
Qed.

Lemma getRow_step h M c i :
  components h M = Some c -> (i < 2)%nat ->
  exists out h1,
    getRow M (index_value i) undefined h = (Ok out, h1) /\
    coordinates h1 out = Some (row i c) /\ keeps h h1.
Proof.
  intros Hc Hi. pose proof (is_matrix_of _ _ _ Hc) as Hm.
  apply components_inv in Hc as (l & a & f & es & ps & fa & -> & Hl & Ha & ->).
  destruct (key_read_row es ps) as (R0 & R1 & R2 & R3).
  assert (Hi' : i = 0%nat \/ i = 1%nat) by lia. destruct Hi' as [-> | ->].
  - destruct (proj1 (getRow_modes h l a f fa es ps Hl Ha _ index_guard_0))
      as (out & h1 & Hrun & Hout).
    exists out, h1. split; [exact Hrun|]. split.
    + rewrite Hout, R0, R1. reflexivity.
    + exact (keeps_of_run h (GetRow (VRef l) (index_value 0)) out h1 Hm Hrun).
  - destruct (proj1 (getRow_modes h l a f fa es ps Hl Ha _ index_guard_1))
      as (out & h1 & Hrun & Hout).
    exists out, h1. split; [exact Hrun|]. split.
    + rewrite Hout, R2, R3. reflexivity.
    + exact (keeps_of_run h (GetRow (VRef l) (index_value 1)) out h1 Hm Hrun).
Qed.

Lemma elems_after_column es x y :
  four (elems_after (elems_after es (of_Z 0) x) (add (of_Z 0) (of_Z 2)) y) =
    with_column 0 (x, y) (four es) /\
  four (elems_after (elems_after es (of_Z 1) x) (add (of_Z 1) (of_Z 2)) y) =
    with_column 1 (x, y) (four es).
Proof.
  unfold elems_after.
  change (to_array_index (of_Z 0)) with (Some 0%nat).
  change (to_array_index (add (of_Z 0) (of_Z 2))) with (Some 2%nat).
  change (to_array_index (of_Z 1)) with (Some 1%nat).
  change (to_array_index (add (of_Z 1) (of_Z 2))) with (Some 3%nat).
  unfold four, with_column. rewrite !elems_get_set. split; reflexivity.
Qed.

Lemma elems_after_row es x y :
  four (elems_after (elems_after es (mul (of_Z 0) (of_Z 2)) x)
          (add (mul (of_Z 0) (of_Z 2)) (of_Z 1)) y) =
    with_row 0 (x, y) (four es) /\
  four (elems_after (elems_after es (mul (of_Z 1) (of_Z 2)) x)
          (add (mul (of_Z 1) (of_Z 2)) (of_Z 1)) y) =
    with_row 1 (x, y) (four es).
Proof.
  unfold elems_after.
  change (to_array_index (mul (of_Z 0) (of_Z 2))) with (Some 0%nat).
  change (to_array_index (add (mul (of_Z 0) (of_Z 2)) (of_Z 1))) with (Some 1%nat).
  change (to_array_index (mul (of_Z 1) (of_Z 2))) with (Some 2%nat).
  change (to_array_index (add (mul (of_Z 1) (of_Z 2)) (of_Z 1))) with (Some 3%nat).
  unfold four, with_row. rewrite !elems_get_set. split; reflexivity.
Qed.

Lemma setColumn_step h M V c xy i :
  components h M = Some c -> coordinates h V = Some xy -> (i < 2)%nat ->
  exists out h1,
    setColumn M (index_value i) V undefined h = (Ok out, h1) /\
    components h1 out = Some (with_column i xy c) /\ keeps h h1.
Proof.
  intros Hc HV Hi. pose proof (is_matrix_of _ _ _ Hc) as Hm.
  pose proof (is_vector_of _ _ _ HV) as Hv.
  apply components_inv in Hc as (l & a & f & es & ps & fa & -> & Hl & Ha & ->).
  pose proof Hv as Hv'.
  apply is_vector_inv in Hv' as (lc & cx & cy & fc & -> & Hcv).
  cbn in HV. rewrite Hcv in HV. inversion HV; subst xy.
  destruct (elems_after_column es cx cy) as [E0 E1].
  assert (Hi' : i = 0%nat \/ i = 1%nat) by lia. destruct Hi' as [-> | ->].
  - destruct (proj1 (setColumn_modes h l a f fa es ps Hl Ha lc cx cy fc Hcv _ index_guard_0))
      as (out & h1 & Hrun & Hout).
    exists out, h1. split; [exact Hrun|]. split; [now rewrite Hout, E0|].
    exact (keeps_of_run h (SetColumn (VRef l) (index_value 0) (VRef lc)) out h1
             (conj Hm Hv) Hrun).
  - destruct (proj1 (setColumn_modes h l a f fa es ps Hl Ha lc cx cy fc Hcv _ index_guard_1))
      as (out & h1 & Hrun & Hout).
    exists out, h1. split; [exact Hrun|]. split; [now rewrite Hout, E1|].
    exact (keeps_of_run h (SetColumn (VRef l) (index_value 1) (VRef lc)) out h1
             (conj Hm Hv) Hrun).
Qed.

Lemma setRow_step h M V c xy i :
  components h M = Some c -> coordinates h V = Some xy -> (i < 2)%nat ->
  exists out h1,
    setRow M (index_value i) V undefined h = (Ok out, h1) /\
    components h1 out = Some (with_row i xy c) /\ keeps h h1.
Proof.
  intros Hc HV Hi. pose proof (is_matrix_of _ _ _ Hc) as Hm.
  pose proof (is_vector_of _ _ _ HV) as Hv.
  apply components_inv in Hc as (l & a & f & es & ps & fa & -> & Hl & Ha & ->).
  pose proof Hv as Hv'.
  apply is_vector_inv in Hv' as (lc & cx & cy & fc & -> & Hcv).
  cbn in HV. rewrite Hcv in HV. inversion HV; subst xy.
  destruct (elems_after_row es cx cy) as [E0 E1].
  assert (Hi' : i = 0%nat \/ i = 1%nat) by lia. destruct Hi' as [-> | ->].
  - destruct (proj1 (setRow_modes h l a f fa es ps Hl Ha lc cx cy fc Hcv _ index_guard_0))
      as (out & h1 & Hrun & Hout).
    exists out, h1. split; [exact Hrun|]. split; [now rewrite Hout, E0|].
    exact (keeps_of_run h (SetRow (VRef l) (index_value 0) (VRef lc)) out h1
             (conj Hm Hv) Hrun).
  - destruct (proj1 (setRow_modes h l a f fa es ps Hl Ha lc cx cy fc Hcv _ index_guard_1))
      as (out & h1 & Hrun & Hout).
    exists out, h1. split; [exact Hrun|]. split; [now rewrite Hout, E1|].
    exact (keeps_of_run h (SetRow (VRef l) (index_value 1) (VRef lc)) out h1
             (conj Hm Hv) Hrun).
Qed.

(** X13.  A column that was set is the column that is read back, the other
    column is the one of the original, and the original is unchanged. *)
Theorem setColumn_getColumn (h : heap) (M V : value) (c : prim * prim * prim * prim)
    (xy : prim * prim) (i : nat) :
  components h M = Some c -> coordinates h V = Some xy -> (i < 2)%nat ->
  exists S h1 G h2 G' h3,
    setColumn M (index_value i) V undefined h = (Ok S, h1) /\
    getColumn S (index_value i) undefined h1 = (Ok G, h2) /\
    getColumn S (index_value (1 - i)) undefined h2 = (Ok G', h3) /\
    coordinates h3 G = Some xy /\
    coordinates h3 G' = Some (column (1 - i) c) /\
    components h3 M = Some c.
Proof.
  intros Hc HV Hi.
  destruct (setColumn_step h M V c xy i Hc HV Hi) as (S & h1 & R1 & C1 & K1).
  destruct (getColumn_step h1 S _ i C1 Hi) as (G & h2 & R2 & C2 & K2).
  destruct (getColumn_step h2 S _ (1 - i) (proj1 K2 _ _ C1) ltac:(lia))
    as (G' & h3 & R3 & C3 & K3).
  exists S, h1, G, h2, G', h3. repeat (split; [assumption|]).
  destruct c as [[[c0 c1] c2] c3], xy as [x y].
  assert (Hi' : i = 0%nat \/ i = 1%nat) by lia.
  split; [|split].
  - rewrite (proj2 K3 _ _ C2). now destruct Hi' as [-> | ->].
  - rewrite C3. now destruct Hi' as [-> | ->].
  - apply K3, K2, K1, Hc.
Qed.

(** X13 on an example. *)
Lemma setColumn_getColumn_example :
  exists S h1 G h2 G' h3,
    setColumn example_M (index_value 1) example_V undefined (snd example_vector) =
      (Ok S, h1) /\
    getColumn S (index_value 1) undefined h1 = (Ok G, h2) /\
    getColumn S (index_value (1 - 1)) undefined h2 = (Ok G', h3) /\
    coordinates h3 G = Some (num 5, num 6) /\
    coordinates h3 G' = Some (column (1 - 1) (num 1, num 2, num 3, num 4)) /\
    components h3 example_M = Some (num 1, num 2, num 3, num 4).
Proof.
  apply (setColumn_getColumn (snd example_vector) example_M example_V
           (num 1, num 2, num 3, num 4) (num 5, num 6) 1).
  - reflexivity.
  - reflexivity.
  - lia.
Defined.

(** X14.  A row that was set is the row that is read back, the other row is
    the one of the original, and the original is unchanged. *)
Theorem setRow_getRow (h : heap) (M V : value) (c : prim * prim * prim * prim)
    (xy : prim * prim) (i : nat) :
  components h M = Some c -> coordinates h V = Some xy -> (i < 2)%nat ->
  exists S h1 G h2 G' h3,
    setRow M (index_value i) V undefined h = (Ok S, h1) /\
    getRow S (index_value i) undefined h1 = (Ok G, h2) /\
    getRow S (index_value (1 - i)) undefined h2 = (Ok G', h3) /\
    coordinates h3 G = Some xy /\
    coordinates h3 G' = Some (row (1 - i) c) /\
    components h3 M = Some c.
Proof.
  intros Hc HV Hi.
  destruct (setRow_step h M V c xy i Hc HV Hi) as (S & h1 & R1 & C1 & K1).
  destruct (getRow_step h1 S _ i C1 Hi) as (G & h2 & R2 & C2 & K2).
  destruct (getRow_step h2 S _ (1 - i) (proj1 K2 _ _ C1) ltac:(lia))
    as (G' & h3 & R3 & C3 & K3).
  exists S, h1, G, h2, G', h3. repeat (split; [assumption|]).
  destruct c as [[[c0 c1] c2] c3], xy as [x y].
  assert (Hi' : i = 0%nat \/ i = 1%nat) by lia.
  split; [|split].
  - rewrite (proj2 K3 _ _ C2). now destruct Hi' as [-> | ->].
  - rewrite C3. now destruct Hi' as [-> | ->].
  - apply K3, K2, K1, Hc.
Qed.

(** X14 on an example. *)
Lemma setRow_getRow_example :
  exists S h1 G h2 G' h3,
    setRow example_M (index_value 1) example_V undefined (snd example_vector) =
      (Ok S, h1) /\
    getRow S (index_value 1) undefined h1 = (Ok G, h2) /\
    getRow S (index_value (1 - 1)) undefined h2 = (Ok G', h3) /\
    coordinates h3 G = Some (num 5, num 6) /\
    coordinates h3 G' = Some (row (1 - 1) (num 1, num 2, num 3, num 4)) /\
    components h3 example_M = Some (num 1, num 2, num 3, num 4).
Proof.
  apply (setRow_getRow (snd example_vector) example_M example_V
           (num 1, num 2, num 3, num 4) (num 5, num 6) 1).
  - reflexivity.
  - reflexivity.
  - lia.
Defined.

(** X15.  Row i of [transpose(M)] is column i of M. *)
Theorem getRow_of_transpose (h : heap) (M : value) (c : prim * prim * prim * prim) (i : nat) :
  components h M = Some c -> (i < 2)%nat ->
  exists T h1 R h2 C h3,
    transpose M undefined h = (Ok T, h1) /\
    getRow T (index_value i) undefined h1 = (Ok R, h2) /\
    getColumn M (index_value i) undefined h2 = (Ok C, h3) /\
    coordinates h3 R = coordinates h3 C /\ coordinates h3 C = Some (column i c).
Proof.
  destruct c as [[[c0 c1] c2] c3]. intros Hc Hi.
  destruct (transpose_step h M _ _ _ _ Hc) as (T & h1 & R1 & C1 & K1).
  destruct (getRow_step h1 T _ i C1 Hi) as (R & h2 & R2 & C2 & K2).
  destruct (getColumn_step h2 M _ i (proj1 K2 _ _ (proj1 K1 _ _ Hc)) Hi)
    as (C & h3 & R3 & C3 & K3).
  exists T, h1, R, h2, C, h3. repeat (split; [assumption|]).
  rewrite (proj2 K3 _ _ C2), C3.
  assert (Hi' : i = 0%nat \/ i = 1%nat) by lia.
  now destruct Hi' as [-> | ->].
Qed.

(** X15 on an example. *)
Lemma getRow_of_transpose_example :
  exists T h1 R h2 C h3,
    transpose example_M undefined example_heap = (Ok T, h1) /\
    getRow T (index_value 1) undefined h1 = (Ok R, h2) /\
    getColumn example_M (index_value 1) undefined h2 = (Ok C, h3) /\
    coordinates h3 R = coordinates h3 C /\
    coordinates h3 C = Some (column 1 (num 1, num 2, num 3, num 4)).
Proof.
  apply (getRow_of_transpose example_heap example_M (num 1, num 2, num 3, num 4) 1).
  - reflexivity.
  - lia.
Defined.

(** X16.  Entry (r, c) of a product is row r of the left matrix times column c
    of the right one. *)
Theorem product_by_rows_and_columns (h : heap) (L R : value)
    (l r : prim * prim * prim * prim) (i j : nat) :
  components h L = Some l -> components h R = Some r ->
  (i < 2)%nat -> (j < 2)%nat ->
  exists P h1 p Row h2 Col h3,
    multiply L R undefined h = (Ok P, h1) /\ components h1 P = Some p /\
    getRow L (index_value i) undefined h1 = (Ok Row, h2) /\
    getColumn R (index_value j) undefined h2 = (Ok Col, h3) /\
    coordinates h3 Row = Some (row i l) /\ coordinates h3 Col = Some (column j r) /\
    component (i * 2 + j) p = dot (row i l) (column j r).
Proof.
  destruct l as [[[l0 l1] l2] l3], r as [[[r0 r1] r2] r3]. intros HL HR Hi Hj.
  destruct (multiply_step h L R _ _ _ _ _ _ _ _ HL HR) as (P & h1 & R1 & C1 & K1).
  destruct (getRow_step h1 L _ i (proj1 K1 _ _ HL) Hi) as (Row & h2 & R2 & C2 & K2).
  destruct (getColumn_step h2 R _ j (proj1 K2 _ _ (proj1 K1 _ _ HR)) Hj)
    as (Col & h3 & R3 & C3 & K3).
  exists P, h1. eexists. exists Row, h2, Col, h3.
  split; [exact R1|]. split; [exact C1|]. do 2 (split; [assumption|]).
  split; [exact (proj2 K3 _ _ C2)|]. split; [exact C3|].
  assert (Hi' : i = 0%nat \/ i = 1%nat) by lia.
  assert (Hj' : j = 0%nat \/ j = 1%nat) by lia.
  destruct Hi' as [-> | ->], Hj' as [-> | ->]; reflexivity.
Qed.

(** X16 on an example. *)
Lemma product_by_rows_and_columns_example :
  exists P h1 p Row h2 Col h3,
    multiply example_M example_N undefined (snd example_twin) = (Ok P, h1) /\
    components h1 P = Some p /\
    getRow example_M (index_value 1) undefined h1 = (Ok Row, h2) /\
    getColumn example_N (index_value 0) undefined h2 = (Ok Col, h3) /\
    coordinates h3 Row = Some (row 1 (num 1, num 2, num 3, num 4)) /\
    coordinates h3 Col = Some (column 0 (num 1, num 2, num 3, num 4)) /\
    component (1 * 2 + 0) p =
      dot (row 1 (num 1, num 2, num 3, num 4)) (column 0 (num 1, num 2, num 3, num 4)).
Proof.
  apply (product_by_rows_and_columns (snd example_twin) example_M example_N
           (num 1, num 2, num 3, num 4) (num 1, num 2, num 3, num 4) 1 0).
  - reflexivity.
  - reflexivity.
  - lia.
  - lia.
Defined.

(** ** Within an epsilon *)

Lemma equalsEpsilon_distinct h l a f es ps fa l' a' f' es' ps' fa' eps :
  h !! l = Some (Cell (OMatrix2 a) f) -> h !! a = Some (Cell (OArray es ps) fa) ->
  h !! l' = Some (Cell (OMatrix2 a') f') -> h !! a' = Some (Cell (OArray es' ps') fa') ->
  l <> l' ->
  equalsEpsilon (VRef l) (VRef l') (VPrim (PNumber eps)) h =
    (Ok (within eps (elems_get es 0) (elems_get es' 0) &&
         within eps (elems_get es 1) (elems_get es' 1) &&
         within eps (elems_get es 2) (elems_get es' 2) &&
         within eps (elems_get es 3) (elems_get es' 3)), h).
Proof.
  intros Hl Ha Hl' Ha' Hne. unfold equalsEpsilon. cbn [strict_equals_value is_undefined orb].
  apply Nat.eqb_neq in Hne. rewrite Hne. unfold within.
  js_run. destruct (leb (Math_abs (js_sub (elems_get es 0) (elems_get es' 0))) eps);
    [|reflexivity].
  cbn [negb andb]. js_run.
  destruct (leb (Math_abs (js_sub (elems_get es 1) (elems_get es' 1))) eps); [|reflexivity].
  cbn [negb andb]. js_run.
  destruct (leb (Math_abs (js_sub (elems_get es 2) (elems_get es' 2))) eps); [|reflexivity].
  cbn [negb andb]. js_run. reflexivity.
Qed.

Lemma equalsEpsilon_run h M N c c' eps :
  components h M = Some c -> components h N = Some c' ->
  equalsEpsilon M N (VPrim (PNumber eps)) h =
    (Ok (strict_equals_value M N ||
         within eps (component 0 c) (component 0 c') &&
         within eps (component 1 c) (component 1 c') &&
         within eps (component 2 c) (component 2 c') &&
         within eps (component 3 c) (component 3 c')), h).
Proof.
  intros HM HN.
  apply components_inv in HM as (l & a & f & es & ps & fa & -> & Hl & Ha & ->).
  apply components_inv in HN as (l' & a' & f' & es' & ps' & fa' & -> & Hl' & Ha' & ->).
  destruct (decide (l = l')) as [<- | Hne].
  - unfold equalsEpsilon. cbn [strict_equals_value]. now rewrite Nat.eqb_refl.
  - rewrite (equalsEpsilon_distinct _ _ _ _ _ _ _ _ _ _ _ _ _ eps Hl Ha Hl' Ha' Hne).
    cbn [strict_equals_value]. apply Nat.eqb_neq in Hne. now rewrite Hne.
Qed.

Lemma within_equal eps p q :
  finite_prim p -> finite_prim q -> strict_equals p q = true -> leb zero eps = true ->
  within eps p q = true.
Proof.
  intros (x & -> & Hx) (y & -> & Hy) E He. unfold within, Math_abs, js_sub.
  cbn [to_number strict_equals] in *. now rewrite (sub_same x y Hx Hy E).
Qed.

Lemma within_unbounded eps p : unbounded p = true -> within eps p p = false.
Proof.
  unfold unbounded, within, Math_abs, js_sub.
  destruct (to_number p) as [s|s| |s m e]; try discriminate; intros _.
  - now destruct s.
  - reflexivity.
Qed.

(** X17.  Matrices whose components are pairwise [===] and finite are within
    every epsilon that is not below zero. *)
Theorem equalsEpsilon_of_equal (h : heap) (M N : value) (c c' : prim * prim * prim * prim)
    (eps : number) :
  components h M = Some c -> components h N = Some c' ->
  each finite_prim c -> each finite_prim c' ->
  components_equal c c' = true -> leb zero eps = true ->
  equalsEpsilon M N (VPrim (PNumber eps)) h = (Ok true, h).
Proof.
  intros HM HN Fc Fc' E He. rewrite (equalsEpsilon_run h M N c c' eps HM HN).
  destruct c as [[[c0 c1] c2] c3], c' as [[[d0 d1] d2] d3].
  destruct Fc as (F0 & F1 & F2 & F3), Fc' as (G0 & G1 & G2 & G3).
  cbn [components_equal] in E.
  apply andb_true_iff in E as [E E3]. apply andb_true_iff in E as [E E2].
  apply andb_true_iff in E as [E0 E1].
  cbn [component]. rewrite !within_equal by assumption. now rewrite orb_true_r.
Qed.

(** X17 on an example. *)
Lemma equalsEpsilon_of_equal_example :
  equalsEpsilon example_M example_N (VPrim (PNumber zero)) (snd example_twin) =
    (Ok true, snd example_twin).
Proof.
  apply (equalsEpsilon_of_equal (snd example_twin) example_M example_N
           (num 1, num 2, num 3, num 4) (num 1, num 2, num 3, num 4) zero).
  - reflexivity.
  - reflexivity.
  - repeat split; eexists; split; reflexivity.
  - repeat split; eexists; split; reflexivity.
  - reflexivity.
  - reflexivity.
Defined.

(** X18.  Two distinct instances with the same components, one of them an
    infinity or NaN, are within no epsilon. *)
Theorem equalsEpsilon_unbounded (h : heap) (M N : value) (c : prim * prim * prim * prim)
    (eps : number) (n : nat) :
  components h M = Some c -> components h N = Some c ->
  strict_equals_value M N = false ->
  (n < 4)%nat -> unbounded (component n c) = true ->
  equalsEpsilon M N (VPrim (PNumber eps)) h = (Ok false, h).
Proof.
  intros HM HN Hd Hn Hu. rewrite (equalsEpsilon_run h M N c c eps HM HN), Hd.
  cbn [orb]. do 2 f_equal.
  destruct n as [|[|[|[|n]]]]; [ | | | |lia];
    rewrite (within_unbounded eps _ Hu); now rewrite ?andb_false_r.
Qed.

(** X18 on an example. *)
Lemma equalsEpsilon_unbounded_example :
  equalsEpsilon example_U example_W (VPrim (PNumber Infinity)) (snd example_unbounded_twin) =
    (Ok false, snd example_unbounded_twin).
Proof.
  apply (equalsEpsilon_unbounded (snd example_unbounded_twin) example_U example_W
           (num 0, num 0, PNumber Infinity, num 0) Infinity 2).
  - reflexivity.
  - reflexivity.
  - reflexivity.
  - lia.
  - reflexivity.
Defined.

(** ** The row-major factory, twice *)

(** X19.  Reading the storage of fromRowMajorArray's result as a row-major
    array gives back the four elements of the input. *)
Theorem fromRowMajorArray_twice (h : heap) (a : loc) (es : list prim) :
  elements h a = Some es ->
  exists R h1 a1 R' h2,
    fromRowMajorArray (VRef a) undefined h = (Ok R, h1) /\
    storage h1 R = Some a1 /\
    fromRowMajorArray (VRef a1) undefined h1 = (Ok R', h2) /\
    components h2 R' = Some (four es) /\ elements h2 a = Some es.
Proof.
  intros He. unfold elements in He.
  destruct (h !! a) as [[[es0 ps|a'|x y] fa]|] eqn:Ha; try discriminate.
  inversion He; subst es0; clear He.
  destruct (proj1 (fromRowMajorArray_modes h a es ps fa Ha)) as (R & h1 & R1 & C1).
  destruct (allocating_call_frame h (FromRowMajorArray (VRef a)) R h1 I R1)
    as (_ & _ & Hk & _).
  pose proof C1 as C1'.
  apply components_inv in C1' as (l1 & a1 & f1 & es1 & ps1 & fa1 & -> & Hl1 & Ha1 & E1).
  destruct (proj1 (fromRowMajorArray_modes _ a1 es1 ps1 fa1 Ha1)) as (R' & h2 & R2 & C2).
  destruct (allocating_call_frame _ (FromRowMajorArray (VRef a1)) R' h2 I R2)
    as (_ & _ & Hk2 & _).
  exists (VRef l1), h1, a1, R', h2.
  split; [exact R1|]. split; [cbn; now rewrite Hl1|].
  split; [exact R2|]. split.
  - rewrite C2. unfold four in E1. inversion E1. reflexivity.
  - unfold elements. now rewrite (Hk2 _ _ (Hk _ _ Ha)).
Qed.

(** X19 on an example. *)
Lemma fromRowMajorArray_twice_example :
  exists R h1 a1 R' h2,
    fromRowMajorArray (VRef 4) undefined (snd example_short) = (Ok R, h1) /\
    storage h1 R = Some a1 /\
    fromRowMajorArray (VRef a1) undefined h1 = (Ok R', h2) /\
    components h2 R' = Some (four [num 1; num 2]) /\
    elements h2 4%nat = Some [num 1; num 2].
Proof.
  apply (fromRowMajorArray_twice (snd example_short) 4 [num 1; num 2]).
  reflexivity.
Defined.
